(** * The container log delivery pipeline of dperny/docker

    A shallow embedding of

    - [client.ParseLogDetails]            (client/parse_logs.go),
    - [httputils.stringAttrs], [byKey] and [httputils.WriteLogStream]
                                          (api/server/httputils/write_log_stream.go),
    - [Daemon.ContainerLogs], [Daemon.getLogger] and
      [Daemon.mergeAndVerifyLogConfig]    (daemon/logs.go),
    - [VolumeSpecToGRPC], [VolumeFromGRPC] and the FromGRPC converters
                                          (daemon/cluster/convert/volume.go),

    together with the pieces of the Go standard library these functions call
    ([strings.Split], [strings.SplitN], [strings.Join], [url.QueryUnescape],
    [url.QueryEscape], [strconv.Atoi], [sort.Sort]).

    Go strings and byte slices are sequences of bytes: both are [string]
    here.  A [map[string]string] is a [gmap string string].  A Go function
    returning [(T, error)] returns a [result T]. *)

From stdpp Require Import base gmap strings list fin_maps sorting.
From Stdlib Require Import ZArith Ascii String Lia.
From Stdlib Require OrderedTypeEx.
Local Open Scope string_scope.
Local Open Scope Z_scope.

(** * Part I: the model *)

(** ** Errors *)

(** The error values that occur in the modelled code.  Go's [error] is an
    interface; the constructors are the concrete implementations the three
    source files create or pass along. *)
Inductive error : Type :=
  | errors_New (text : string)                 (* errors.New(text) *)
  | url_EscapeError (s : string)               (* url.EscapeError(s) *)
  | strconv_NumError (num : string)            (* &strconv.NumError{Num: num, ...} *)
  | logger_ErrReadLogsNotSupported             (* logger.ErrReadLogsNotSupported *)
  | foreign_error (text : string).             (* an error made by a collaborator *)

Inductive result (A : Type) : Type :=
  | Ok (a : A)
  | Fail (e : error).
Arguments Ok {A} a.
Arguments Fail {A} e.

Definition bind {A B : Type} (r : result A) (k : A -> result B) : result B :=
  match r with
  | Ok a => k a
  | Fail e => Fail e
  end.

Declare Scope go_scope.
Delimit Scope go_scope with go.
Notation "'try' x <- r 'in' k" := (bind r (fun x => k))
  (at level 10, x name, r at level 100, k at level 200) : go_scope.
Local Open Scope go_scope.

Definition is_Ok {A : Type} (r : result A) : bool :=
  match r with Ok _ => true | Fail _ => false end.

#[global] Instance error_eq_dec : EqDecision error.
Proof. solve_decision. Defined.

(** ** Package strings *)

Module strings.

(** [strings.Index(s, sep) >= 0] cut at the first occurrence, for a
    one-byte separator: the text before it and the text after it. *)
Fixpoint cut (s : string) (sep : ascii) : option (string * string) :=
  match s with
  | EmptyString => None
  | String c rest =>
      if Ascii.eqb c sep then Some (EmptyString, rest)
      else match cut rest sep with
           | Some (before, after) => Some (String c before, after)
           | None => None
           end
  end.

(** [strings.SplitN(s, sep, n)] for [n >= 0] and a one-byte separator:
    at most [n] substrings, the last one being the unsplit remainder. *)
Fixpoint SplitN (s : string) (sep : ascii) (n : nat) : list string :=
  match n with
  | O => []
  | S O => [s]
  | S n' =>
      match cut s sep with
      | None => [s]
      | Some (before, after) => before :: SplitN after sep n'
      end
  end.

(** [strings.Split(s, sep)] for a one-byte separator: every substring
    between separators; the empty string yields one empty substring. *)
Fixpoint Split (s : string) (sep : ascii) : list string :=
  match s with
  | EmptyString => [EmptyString]
  | String c rest =>
      if Ascii.eqb c sep then EmptyString :: Split rest sep
      else match Split rest sep with
           | seg :: segs => String c seg :: segs
           | [] => [String c EmptyString]
           end
  end.

(** [strings.Join(a, sep)]. *)
Fixpoint Join (a : list string) (sep : string) : string :=
  match a with
  | [] => ""
  | [x] => x
  | x :: rest => x ++ sep ++ Join rest sep
  end.

End strings.

(** ** Package net/url *)

Module url.

Definition between (lo hi : N) (c : ascii) : bool :=
  (lo <=? N_of_ascii c)%N && (N_of_ascii c <=? hi)%N.

Definition ishex (c : ascii) : bool :=
  between 48 57 c || between 97 102 c || between 65 70 c.

Definition unhex (c : ascii) : N :=
  if between 48 57 c then N_of_ascii c - 48
  else if between 97 102 c then N_of_ascii c - 97 + 10
  else if between 65 70 c then N_of_ascii c - 65 + 10
  else 0.

(** [unescape(s, encodeQueryComponent)]: [%XX] becomes the byte [XX], [+]
    becomes a space, a [%] not followed by two hex digits is an
    [EscapeError] carrying at most three bytes from the [%] on. *)
Fixpoint QueryUnescape (s : string) : result string :=
  match s with
  | EmptyString => Ok EmptyString
  | String c rest =>
      if Ascii.eqb c "%" then
        match rest with
        | String h1 (String h2 rest') =>
            if ishex h1 && ishex h2 then
              try t <- QueryUnescape rest' in
              Ok (String (ascii_of_N (N.lor (N.shiftl (unhex h1) 4) (unhex h2))) t)
            else Fail (url_EscapeError (String c (String h1 (String h2 EmptyString))))
        | _ => Fail (url_EscapeError s)
        end
      else if Ascii.eqb c "+" then
        try t <- QueryUnescape rest in Ok (String " " t)
      else
        try t <- QueryUnescape rest in Ok (String c t)
  end.

(** [shouldEscape(c, encodeQueryComponent)]: letters, digits and
    [-], [_], [.], [~] are left alone, every other byte is escaped. *)
Definition shouldEscape (c : ascii) : bool :=
  negb (between 97 122 c || between 65 90 c || between 48 57 c
        || Ascii.eqb c "-" || Ascii.eqb c "_" || Ascii.eqb c "." || Ascii.eqb c "~").

Definition upperhex (n : N) : ascii :=
  if (n <? 10)%N then ascii_of_N (48 + n) else ascii_of_N (65 + (n - 10)).

(** [url.QueryEscape(s)]: a space becomes [+], any other byte that
    [shouldEscape] becomes [%XX] in upper-case hex. *)
Fixpoint QueryEscape (s : string) : string :=
  match s with
  | EmptyString => EmptyString
  | String c rest =>
      if Ascii.eqb c " " then String "+" (QueryEscape rest)
      else if shouldEscape c then
        String "%" (String (upperhex (N.shiftr (N_of_ascii c) 4))
                     (String (upperhex (N.land (N_of_ascii c) 15)) (QueryEscape rest)))
      else String c (QueryEscape rest)
  end.

End url.

(** ** Package strconv *)

Module strconv.

Definition digit (c : ascii) : option Z :=
  if url.between 48 57 c then Some (Z.of_N (N_of_ascii c) - 48) else None.

Fixpoint digits (s : string) (acc : Z) : option Z :=
  match s with
  | EmptyString => Some acc
  | String c rest =>
      match digit c with
      | Some d => digits rest (acc * 10 + d)
      | None => None
      end
  end.

(** [strconv.Atoi(s)], that is [ParseInt(s, 10, 0)] with a 64-bit [int]:
    an optional sign, at least one decimal digit and nothing else, and a
    value that fits; any other input is a [*NumError]. *)
Definition Atoi (s : string) : result Z :=
  match s with
  | EmptyString => Fail (strconv_NumError s)
  | String c rest =>
      let neg := Ascii.eqb c "-" in
      let body := if neg || Ascii.eqb c "+" then rest else s in
      match body with
      | EmptyString => Fail (strconv_NumError s)
      | _ =>
          match digits body 0 with
          | None => Fail (strconv_NumError s)
          | Some n =>
              let v := if neg then - n else n in
              if (v <? - 2 ^ 63) || (2 ^ 63 - 1 <? v)
              then Fail (strconv_NumError s)
              else Ok v
          end
      end
  end.

End strconv.

(** ** client.ParseLogDetails (client/parse_logs.go) *)

Module client.

(** The loop [for _, pair := range pairs], threading [detailsMap]. *)
Fixpoint parse_pairs (pairs : list string) (detailsMap : gmap string string)
  : result (gmap string string) :=
  match pairs with
  | [] => Ok detailsMap
  | pair_ :: pairs' =>
      match strings.SplitN pair_ "=" 2 with
      | [p0; p1] =>
          try k <- url.QueryUnescape p0 in
          try v <- url.QueryUnescape p1 in
          parse_pairs pairs' (<[k := v]> detailsMap)
      | _ => Fail (errors_New "invalid details format")
      end
  end.

Definition ParseLogDetails (details : string) : result (gmap string string) :=
  parse_pairs (strings.Split details ",") ∅.

End client.

(** ** Types of the collaborating packages *)

Module time.

(** A [time.Time]: the zero value, or [time.Unix(sec, nsec)]. *)
Inductive Time : Type :=
  | zero
  | Unix (sec nsec : Z).

End time.

Module jsonlog.

(** Modelled from the spec: the layout constant [jsonlog.RFC3339NanoFixed]
    is declared in pkg/jsonlog, outside src/; the spec describes it as a
    fixed-width, fractional-second, timezone-qualified timestamp layout. *)
Definition RFC3339NanoFixed : string := "2006-01-02T15:04:05.000000000Z07:00".

End jsonlog.

Module backend.

(** Modelled from the spec: the struct [backend.LogMessage] is declared in
    api/types/backend, outside src/.  Its fields are the ones the code
    reads: payload, source stream, timestamp, attributes and, for a
    terminal message, the error. *)
Record LogMessage : Type := {
  Line : string;
  Source : string;
  Timestamp : time.Time;
  Attrs : gmap string string;
  Err : option error
}.

(** Modelled from the spec: the struct [backend.ContainerLogsConfig] is
    declared in api/types/backend, outside src/.  [Messages] is the
    channel the caller supplies: [None] is a nil channel, [Some c] the
    channel named [c]. *)
Record ContainerLogsConfig : Type := {
  ShowStdout : bool;
  ShowStderr : bool;
  Follow : bool;
  Tail : string;
  Since : string;
  Timestamps : bool;
  Details : bool;
  Messages : option nat
}.

End backend.

Module stdcopy.

(** The stream tags of [stdcopy.NewStdWriter]. *)
Inductive StdType : Type := Stdin | Stdout | Stderr | Systemerr.

End stdcopy.

Module logger.

(** [logger.ReadConfig]. *)
Record ReadConfig : Type := {
  Since : time.Time;
  Tail : Z;
  Follow : bool
}.

(** Modelled from the spec: the interface [logger.Logger] is declared in
    daemon/logger, outside src/.  A logger value is known by its
    identity [id] (what [cLog != container.LogDriver] compares) and by
    whether its dynamic type also implements [logger.LogReader]. *)
Record Logger : Type := {
  id : nat;
  is_LogReader : bool
}.

#[global] Instance Logger_eq_dec : EqDecision Logger.
Proof. solve_decision. Defined.

End logger.

Module container.

(** Modelled from the spec: the struct [container.Container] is declared
    in package container, outside src/.  The fields are the ones
    [ContainerLogs] and [getLogger] read; [IsRunning] and [StartLogger]
    stand for the results of the methods of that name. *)
Record Container : Type := {
  RemovalInProgress : bool;
  Dead : bool;
  LogConfig_Type : string;          (* HostConfig.LogConfig.Type *)
  IsRunning : bool;
  LogDriver : option logger.Logger;
  StartLogger : result logger.Logger
}.

End container.

(** ** byKey (write_log_stream.go) *)

Module byKey.

(** [strings.Split(s, "=")[0]]. *)
Definition key (s : string) : string :=
  match strings.Split s "=" with
  | k :: _ => k
  | [] => ""
  end.

(** [byKey.Less], on the two elements [s[i]] and [s[j]]. *)
Definition Less (si sj : string) : bool := String.ltb (key si) (key sj).

(** [byKey.Len]. *)
Definition Len (s : list string) : nat := List.length s.

(** [byKey.Less(i, j)] on the slice itself; an index out of range panics
    ([None]). *)
Definition Less_at (s : list string) (i j : nat) : option bool :=
  match s !! i, s !! j with
  | Some si, Some sj => Some (Less si sj)
  | _, _ => None
  end.

(** [byKey.Swap(i, j)], that is [s[i], s[j] = s[j], s[i]]; an index out of
    range panics ([None]). *)
Definition Swap (s : list string) (i j : nat) : option (list string) :=
  match s !! i, s !! j with
  | Some si, Some sj => Some (<[j := si]> (<[i := sj]> s))
  | _, _ => None
  end.

End byKey.

(** ** What the Go runtime and library leave open

    - the order in which [range] visits a map is unspecified: any
      enumeration of the entries;
    - [sort.Sort] is not stable: any rearrangement in which no element is
      [Less] than one before it;
    - [time.Time.Format] and the [Error] method of an error value are
      taken as they come, except that the error made by [errors.New(text)]
      reads [text]. *)

Class GoRuntime : Type := {
  map_range : gmap string string -> list (string * string);
  map_range_perm : forall m, map_range m ≡ₚ map_to_list m;
  sort_Sort : list string -> list string;
  sort_Sort_perm : forall ss, sort_Sort ss ≡ₚ ss;
  sort_Sort_sorted :
    forall ss, StronglySorted (fun a b => byKey.Less b a = false) (sort_Sort ss);
  time_Format : time.Time -> string -> string;
  error_Error : error -> string;
  error_Error_New : forall text, error_Error (errors_New text) = text
}.

(** ** stringAttrs and WriteLogStream (write_log_stream.go) *)

Module httputils.

Definition pair_string (kv : string * string) : string :=
  kv.1 ++ "=" ++ kv.2.

Definition stringAttrs `{GoRuntime} (a : gmap string string) : string :=
  let ss := map pair_string (map_range a) in
  strings.Join (sort_Sort ss) ",".

(** The writers [WriteLogStream] holds: the write flusher [wf] around the
    sink, or a [stdcopy.NewStdWriter(wf, t)]. *)
Inductive Writer : Type :=
  | wf
  | StdWriter (t : stdcopy.StdType).

(** The calls made on the write flusher and on the lane writers. *)
Inductive call : Type :=
  | Flush
  | Write (w : Writer) (p : string)
  | Close.

Record lanes : Type := {
  outStream : Writer;
  errStream : Writer;
  sysErrStream : Writer
}.

Definition make_lanes (mux : bool) : lanes :=
  if mux then
    {| outStream := StdWriter stdcopy.Stdout;
       errStream := StdWriter stdcopy.Stderr;
       sysErrStream := StdWriter stdcopy.Systemerr |}
  else
    {| outStream := wf; errStream := wf; sysErrStream := wf |}.

(** What one round of the [select] observes: the context is done, or a
    receive from [config.Messages] ([None] when the channel is closed). *)
Inductive event : Type :=
  | ctx_Done
  | recv (msg : option backend.LogMessage).

Section writer.
Context `{GoRuntime}.
Variable config : backend.ContainerLogsConfig.
Variable l : lanes.

Definition error_line (e : error) : string :=
  "Error grabbing logs: " ++ error_Error e ++ String "010" "".

Definition logLine_of (msg : backend.LogMessage) : string :=
  let logLine := backend.Line msg in
  let logLine :=
    if backend.Details config
    then (stringAttrs (backend.Attrs msg) ++ " ") ++ logLine
    else logLine in
  let logLine :=
    if backend.Timestamps config
    then (time_Format (backend.Timestamp msg) jsonlog.RFC3339NanoFixed ++ " ") ++ logLine
    else logLine in
  logLine.

Definition write_message (msg : backend.LogMessage) : list call :=
  let logLine := logLine_of msg in
  ((if String.eqb (backend.Source msg) "stdout" && backend.ShowStdout config
    then [Write (outStream l) logLine] else [])
   ++
   (if String.eqb (backend.Source msg) "stderr" && backend.ShowStderr config
    then [Write (errStream l) logLine] else []))%list.

(** The [for { select { ... } }] loop over the events that arrive.  The
    result is the calls made, whether the function returned (it does
    not when it is left waiting in [select]), and the events it never
    looked at. *)
Fixpoint loop (evs : list event) : list call * bool * list event :=
  match evs with
  | [] => ([], false, [])
  | ctx_Done :: rest => ([], true, rest)
  | recv None :: rest => ([], true, rest)
  | recv (Some msg) :: rest =>
      match backend.Err msg with
      | Some e => ([Write (sysErrStream l) (error_line e)], true, rest)
      | None =>
          let '(calls, returned, unread) := loop rest in
          ((write_message msg ++ calls)%list, returned, unread)
      end
  end.

End writer.

(** [WriteLogStream(ctx, w, config, mux)]: flush, loop, and the deferred
    [wf.Close()] when the function returns. *)
Definition WriteLogStream `{GoRuntime} (config : backend.ContainerLogsConfig)
    (mux : bool) (evs : list event) : list call * list event :=
  let '(calls, returned, unread) := loop config (make_lanes mux) evs in
  (Flush :: (calls ++ (if returned then [Close] else []))%list, unread).

End httputils.

Module containertypes.

(** Modelled from the spec: the struct [containertypes.LogConfig] is
    declared in api/types/container, outside src/: the name of the log
    driver and its options, a map that may be nil ([None]). *)
Record LogConfig : Type := {
  Type_ : string;
  Config : option (gmap string string)
}.

End containertypes.

(** ** ContainerLogs and getLogger (daemon/logs.go) *)

Module daemon.

(** The daemon as [ContainerLogs] sees it: container lookup, and the
    timestamp parser [timetypes.ParseTimestamps] of api/types/time, which
    is outside src/ and taken as it comes. *)
Record Daemon : Type := {
  GetContainer : string -> result container.Container;
  ParseTimestamps : string -> Z -> result (Z * Z)
}.

Definition getLogger (c : container.Container) : result logger.Logger :=
  match container.LogDriver c with
  | Some driver =>
      if container.IsRunning c then Ok driver else container.StartLogger c
  | None => container.StartLogger c
  end.

(** The goroutine [ContainerLogs] starts: what it has captured and uses,
    namely the channel [config.Messages], the watcher
    [logs := logReader.ReadLogs(readConfig)], the logger [cLog] and the
    container. *)
Record worker : Type := {
  w_Messages : nat;
  w_readConfig : logger.ReadConfig;
  w_cLog : logger.Logger;
  w_container : container.Container
}.

(** What happens to [config.Messages], to the log watcher [logs] and to
    the logger [cLog]. *)
Inductive action : Type :=
  | send (m : backend.LogMessage)         (* config.Messages <- m *)
  | close_Messages                        (* close(config.Messages) *)
  | logs_Close                            (* logs.Close() *)
  | cLog_Close.                           (* cLog.Close() *)

Inductive outcome : Type :=
  | returned (rerr : option error) (acts : list action) (started : option worker)
  | panicked (reason : string).

(** The function body up to [go func() {...}()]: the error it returns, or
    the goroutine it starts before returning nil. *)
Definition body (d : Daemon) (containerName : string)
    (config : backend.ContainerLogsConfig) : result worker :=
  match backend.Messages config with
  | None => Fail (errors_New "can't send messages on a nil channel, fix your code")
  | Some messages =>
      if negb (backend.ShowStdout config || backend.ShowStderr config)
      then Fail (errors_New "You must choose at least one stream")
      else
        try c <- GetContainer d containerName in
        if container.RemovalInProgress c || container.Dead c
        then Fail (errors_New "can not get logs from container which is dead or marked for removal")
        else if String.eqb (container.LogConfig_Type c) "none"
        then Fail logger_ErrReadLogsNotSupported
        else
          try cLog <- getLogger c in
          if negb (logger.is_LogReader cLog)
          then Fail logger_ErrReadLogsNotSupported
          else
            let follow := backend.Follow config && container.IsRunning c in
            let tailLines :=
              match strconv.Atoi (backend.Tail config) with
              | Ok n => n
              | Fail _ => -1
              end in
            try since <-
              (if String.eqb (backend.Since config) ""
               then Ok time.zero
               else
                 try sn <- ParseTimestamps d (backend.Since config) 0 in
                 Ok (time.Unix sn.1 sn.2)) in
            let readConfig :=
              {| logger.Since := since;
                 logger.Tail := tailLines;
                 logger.Follow := follow |} in
            Ok {| w_Messages := messages;
                  w_readConfig := readConfig;
                  w_cLog := cLog;
                  w_container := c |}
  end.

(** [ContainerLogs]: the body, then the deferred
    [if rerr != nil { close(config.Messages) }]; closing a nil channel
    panics. *)
Definition ContainerLogs (d : Daemon) (containerName : string)
    (config : backend.ContainerLogsConfig) : outcome :=
  match body d containerName config with
  | Fail rerr =>
      match backend.Messages config with
      | Some _ => returned (Some rerr) [close_Messages] None
      | None => panicked "close of nil channel"
      end
  | Ok w => returned None [] (Some w)
  end.

(** What one round of the goroutine's [select] observes. *)
Inductive inner_select : Type :=
  | inner_ctx_Done                        (* case <-ctx.Done(): return *)
  | inner_sent.                           (* case config.Messages <- m: *)

Inductive event : Type :=
  | logs_Err (e : error) (delivered : bool)
      (* case err := <-logs.Err; the send that follows is not guarded *)
  | ctx_Done                              (* case <-ctx.Done() *)
  | logs_Msg (msg : option backend.LogMessage) (sel : inner_select).
      (* case msg, ok := <-logs.Msg; None when the channel is closed *)

(** [msg.AsLogMessage()]: a pointer conversion. *)
Definition AsLogMessage (msg : backend.LogMessage) : backend.LogMessage := msg.

(** [&backend.LogMessage{Err: err}]. *)
Definition error_message (e : error) : backend.LogMessage :=
  {| backend.Line := "";
     backend.Source := "";
     backend.Timestamp := time.zero;
     backend.Attrs := ∅;
     backend.Err := Some e |}.

(** The goroutine's [for { select { ... } }]: the sends it makes and
    whether it returns (it does not while it waits in a [select] or in
    an unguarded send). *)
Fixpoint pump (evs : list event) : list action * bool :=
  match evs with
  | [] => ([], false)
  | logs_Err e delivered :: _ =>
      if delivered then ([send (error_message e)], true) else ([], false)
  | ctx_Done :: _ => ([], true)
  | logs_Msg None _ :: _ => ([], true)
  | logs_Msg (Some msg) inner_ctx_Done :: _ => ([], true)
  | logs_Msg (Some msg) inner_sent :: rest =>
      let '(acts, ret) := pump rest in
      (send (AsLogMessage msg) :: acts, ret)
  end.

(** The deferred calls, in the order they run: [close(config.Messages)],
    then [logs.Close()] and, when the logger is not the container's
    cached one, [cLog.Close()]. *)
Definition deferred (w : worker) : list action :=
  close_Messages :: logs_Close ::
  (if decide (Some (w_cLog w) = container.LogDriver (w_container w))
   then [] else [cLog_Close]).

Definition run_worker (w : worker) (evs : list event) : list action :=
  let '(acts, ret) := pump evs in
  (acts ++ (if ret then deferred w else []))%list.

(** The messages sent on [config.Messages], in order. *)
Definition sent (acts : list action) : list backend.LogMessage :=
  omap (fun a => match a with send m => Some m | _ => None end) acts.

(** The same request with another [Tail], and with another [Messages]. *)
Definition set_Tail (tail : string) (config : backend.ContainerLogsConfig)
  : backend.ContainerLogsConfig :=
  {| backend.ShowStdout := backend.ShowStdout config;
     backend.ShowStderr := backend.ShowStderr config;
     backend.Follow := backend.Follow config;
     backend.Tail := tail;
     backend.Since := backend.Since config;
     backend.Timestamps := backend.Timestamps config;
     backend.Details := backend.Details config;
     backend.Messages := backend.Messages config |}.

Definition set_Messages (messages : option nat) (config : backend.ContainerLogsConfig)
  : backend.ContainerLogsConfig :=
  {| backend.ShowStdout := backend.ShowStdout config;
     backend.ShowStderr := backend.ShowStderr config;
     backend.Follow := backend.Follow config;
     backend.Tail := backend.Tail config;
     backend.Since := backend.Since config;
     backend.Timestamps := backend.Timestamps config;
     backend.Details := backend.Details config;
     backend.Messages := messages |}.

(** One round of [for k, v := range daemon.defaultLogConfig.Config]: the
    default is stored unless the key is already there. *)
Definition merge_default (config : gmap string string) (kv : string * string)
  : gmap string string :=
  match config !! kv.1 with
  | Some _ => config
  | None => <[kv.1 := kv.2]> config
  end.

(** [mergeAndVerifyLogConfig]: the log config after the call and the error
    returned.  [defaultLogConfig] is the daemon's field of that name, and
    [ValidateLogOpts] is [logger.ValidateLogOpts], which is outside src/
    and taken as it comes. *)
Definition mergeAndVerifyLogConfig `{GoRuntime}
    (defaultLogConfig : containertypes.LogConfig)
    (ValidateLogOpts : string -> gmap string string -> option error)
    (cfg : containertypes.LogConfig) : containertypes.LogConfig * option error :=
  let type :=
    if String.eqb (containertypes.Type_ cfg) ""
    then containertypes.Type_ defaultLogConfig
    else containertypes.Type_ cfg in
  let config :=
    match containertypes.Config cfg with
    | Some m => m
    | None => ∅
    end in
  let config :=
    if String.eqb type (containertypes.Type_ defaultLogConfig)
    then foldl merge_default config
           (match containertypes.Config defaultLogConfig with
            | Some defaults => map_range defaults
            | None => []
            end)
    else config in
  ({| containertypes.Type_ := type; containertypes.Config := Some config |},
   ValidateLogOpts type config).

End daemon.

(** ** Go values that may be nil, and code that may panic *)

(** A slice: nil ([None]) or its elements; [len] and [range] see the
    elements, [append] (here [go_append]) makes a slice that is not nil. *)
Definition slice (A : Type) : Type := option (list A).

Definition elems {A : Type} (s : slice A) : list A :=
  match s with
  | Some l => l
  | None => []
  end.

Definition go_append {A : Type} (s : slice A) (x : A) : slice A :=
  Some (elems s ++ [x])%list.

(** The outcome of code that dereferences pointers: a value, or the
    run-time panic of a nil dereference. *)
Inductive may_panic (A : Type) : Type :=
  | Return (a : A)
  | Panic.
Arguments Return {A} a.
Arguments Panic {A}.

Definition and_then {A B : Type} (r : may_panic A) (k : A -> may_panic B) : may_panic B :=
  match r with
  | Return a => k a
  | Panic => Panic
  end.

Notation "'call' x <- r 'in' k" := (and_then r (fun x => k))
  (at level 10, x name, r at level 100, k at level 200) : go_scope.

(** [for i, x := range xs { out[i] = f(x) }] where [f] may panic. *)
Fixpoint for_each {A B : Type} (f : A -> may_panic B) (xs : list A) : may_panic (list B) :=
  match xs with
  | [] => Return []
  | x :: xs' =>
      call y <- f x in
      call ys <- for_each f xs' in
      Return (y :: ys)
  end.

(** [int64(x)] of a [uint64], [uint64(x)] of an [int64], and [int(x)] of an
    [int64] where [int] has 64 bits. *)
Definition int64_of_uint64 (x : Z) : Z := if x <? 2 ^ 63 then x else x - 2 ^ 64.
Definition uint64_of_int64 (x : Z) : Z := x mod 2 ^ 64.
Definition int_of_int64 (x : Z) : Z := x.

(** ** The volume types of the swarmkit API (package swarmapi) *)

Module swarmapi.

(** Modelled from the spec: the enumerations and structs of
    github.com/docker/swarmkit/api are declared outside src/.  An
    enumeration has the constants the code names, which are distinct, and
    its other values; a struct has the fields the code reads or sets. *)
Inductive VolumeAccessMode_Scope : Type :=
  | VolumeScopeSingleNode
  | VolumeScopeMultiNode
  | Scope_other (n : Z).

Inductive VolumeAccessMode_SharingMode : Type :=
  | VolumeSharingNone
  | VolumeSharingReadOnly
  | VolumeSharingOneWriter
  | VolumeSharingAll
  | Sharing_other (n : Z).

Inductive VolumeSpec_VolumeAvailability : Type :=
  | VolumeAvailabilityActive
  | VolumeAvailabilityPause
  | VolumeAvailabilityDrain
  | Availability_other (n : Z).

Inductive VolumePublishStatus_State : Type :=
  | VolumePublishStatus_PENDING_PUBLISH
  | VolumePublishStatus_PUBLISHED
  | VolumePublishStatus_PENDING_NODE_UNPUBLISH
  | VolumePublishStatus_PENDING_UNPUBLISH
  | State_other (n : Z).

Record Annotations : Type := {
  Annotations_Name : string;
  Annotations_Labels : option (gmap string string)
}.

Record Driver : Type := {
  Driver_Name : string;
  Driver_Options : option (gmap string string)
}.

Record VolumeAccessMode : Type := {
  Scope : VolumeAccessMode_Scope;
  Sharing : VolumeAccessMode_SharingMode
}.

Record VolumeSecret : Type := {
  Key : string;
  Secret : string
}.

Record Topology : Type := {
  Segments : option (gmap string string)
}.

Record TopologyRequirement : Type := {
  Requisite : slice (option Topology);
  Preferred : slice (option Topology)
}.

Record CapacityRange : Type := {
  RequiredBytes : Z;                      (* int64 *)
  LimitBytes : Z                          (* int64 *)
}.

Record VolumeSpec : Type := {
  Spec_Annotations : Annotations;
  Group : string;
  Spec_Driver : option Driver;
  AccessMode : option VolumeAccessMode;
  Secrets : slice (option VolumeSecret);
  AccessibilityRequirements : option TopologyRequirement;
  Spec_CapacityRange : option CapacityRange;
  Availability : VolumeSpec_VolumeAvailability
}.

Record VolumePublishStatus : Type := {
  NodeID : string;
  State : VolumePublishStatus_State;
  PublishContext : option (gmap string string)
}.

Record VolumeInfo : Type := {
  CapacityBytes : Z;                      (* int64 *)
  VolumeContext : option (gmap string string);
  VolumeID : string;
  AccessibleTopology : slice (option Topology)
}.

(** A protobuf timestamp. *)
Record Timestamp : Type := {
  Seconds : Z;
  Nanos : Z
}.

Record Meta : Type := {
  Version_Index : Z;                      (* uint64 *)
  CreatedAt : option Timestamp;
  UpdatedAt : option Timestamp
}.

Record Volume : Type := {
  ID : string;
  Volume_Meta : Meta;
  Spec : VolumeSpec;
  PublishStatus : slice (option VolumePublishStatus);
  Volume_VolumeInfo : option VolumeInfo
}.

End swarmapi.

(** ** The volume types of the engine API (api/types/mount, api/types/swarm) *)

Module mount.

(** Modelled from the spec: the struct [mount.Driver] is declared in
    api/types/mount, outside src/. *)
Record Driver : Type := {
  Name : string;
  Options : option (gmap string string)
}.

End mount.

Module types.

(** Modelled from the spec: the enumerations and structs of api/types/swarm
    are declared outside src/.  An enumeration has the constants the code
    names, which are distinct, and its other values; a struct has the
    fields the code reads or sets. *)
Inductive VolumeScope : Type :=
  | VolumeScopeSingleNode
  | VolumeScopeMultiNode
  | Scope_other (s : string).

Inductive VolumeSharing : Type :=
  | VolumeSharingNone
  | VolumeSharingReadOnly
  | VolumeSharingOneWriter
  | VolumeSharingAll
  | Sharing_other (s : string).

Inductive VolumeAvailability : Type :=
  | VolumeAvailabilityActive
  | VolumeAvailabilityPause
  | VolumeAvailabilityDrain
  | Availability_other (s : string).

Inductive VolumePublishState : Type :=
  | VolumePendingPublish
  | VolumePublished
  | VolumePendingNodeUnpublish
  | VolumePendingUnpublish
  | PublishState_other (s : string).

Record Annotations : Type := {
  Name : string;
  Labels : option (gmap string string)
}.

Record VolumeAccessMode : Type := {
  Scope : VolumeScope;
  Sharing : VolumeSharing
}.

Record VolumeSecret : Type := {
  Key : string;
  Secret : string
}.

Record Topology : Type := {
  Segments : option (gmap string string)
}.

Record TopologyRequirement : Type := {
  Requisite : slice Topology;
  Preferred : slice Topology
}.

Record CapacityRange : Type := {
  RequiredBytes : Z;                      (* uint64 *)
  LimitBytes : Z                          (* uint64 *)
}.

Record VolumeSpec : Type := {
  Spec_Annotations : Annotations;         (* the embedded Annotations *)
  Group : string;
  Driver : option mount.Driver;
  AccessMode : option VolumeAccessMode;
  Secrets : slice VolumeSecret;
  AccessibilityRequirements : option TopologyRequirement;
  Spec_CapacityRange : option CapacityRange;
  Availability : VolumeAvailability
}.

Record VolumePublishStatus : Type := {
  NodeID : string;
  State : VolumePublishState;
  PublishContext : option (gmap string string)
}.

Record VolumeInfo : Type := {
  CapacityBytes : Z;                      (* int *)
  VolumeContext : option (gmap string string);
  VolumeID : string;
  AccessibleTopology : slice Topology
}.

Record Volume : Type := {
  ID : string;
  Version_Index : Z;                      (* the embedded Meta: Version.Index, *)
  CreatedAt : time.Time;                  (* CreatedAt *)
  UpdatedAt : time.Time;                  (* and UpdatedAt *)
  Spec : VolumeSpec;
  PublishStatus : slice (option VolumePublishStatus);
  Volume_VolumeInfo : option VolumeInfo
}.

End types.

(** ** What the conversions take from outside src/

    - the zero values of the enumerations, which a [switch] without a
      matching case leaves in place;
    - [annotationsFromGRPC], of another file of package convert;
    - [gogotypes.TimestampFromProto], whose error the code drops. *)
Class ConvertContext : Type := {
  zero_swarm_Scope : swarmapi.VolumeAccessMode_Scope;
  zero_swarm_Sharing : swarmapi.VolumeAccessMode_SharingMode;
  zero_swarm_Availability : swarmapi.VolumeSpec_VolumeAvailability;
  zero_Scope : types.VolumeScope;
  zero_Sharing : types.VolumeSharing;
  zero_PublishState : types.VolumePublishState;
  annotationsFromGRPC : swarmapi.Annotations -> types.Annotations;
  TimestampFromProto : option swarmapi.Timestamp -> time.Time
}.

(** ** The volume conversions (daemon/cluster/convert/volume.go) *)

Module convert.

Section convert.
Context `{ConvertContext}.

Definition topologyFromGRPC (top : option swarmapi.Topology) : types.Topology :=
  match top with
  | None => {| types.Segments := None |}
  | Some t => {| types.Segments := swarmapi.Segments t |}
  end.

Definition capacityRangeFromGRPC (capacity : option swarmapi.CapacityRange)
  : option types.CapacityRange :=
  match capacity with
  | None => None
  | Some c =>
      Some {| types.RequiredBytes := uint64_of_int64 (swarmapi.RequiredBytes c);
              types.LimitBytes := uint64_of_int64 (swarmapi.LimitBytes c) |}
  end.

Definition volumeAvailabilityFromGRPC (availability : swarmapi.VolumeSpec_VolumeAvailability)
  : types.VolumeAvailability :=
  match availability with
  | swarmapi.VolumeAvailabilityActive => types.VolumeAvailabilityActive
  | swarmapi.VolumeAvailabilityPause => types.VolumeAvailabilityPause
  | _ => types.VolumeAvailabilityDrain
  end.

Definition accessModeFromGRPC (accessMode : option swarmapi.VolumeAccessMode)
  : option types.VolumeAccessMode :=
  match accessMode with
  | None => None
  | Some am =>
      Some {| types.Scope :=
                match swarmapi.Scope am with
                | swarmapi.VolumeScopeSingleNode => types.VolumeScopeSingleNode
                | swarmapi.VolumeScopeMultiNode => types.VolumeScopeMultiNode
                | _ => zero_Scope
                end;
              types.Sharing :=
                match swarmapi.Sharing am with
                | swarmapi.VolumeSharingNone => types.VolumeSharingNone
                | swarmapi.VolumeSharingReadOnly => types.VolumeSharingReadOnly
                | swarmapi.VolumeSharingOneWriter => types.VolumeSharingOneWriter
                | swarmapi.VolumeSharingAll => types.VolumeSharingAll
                | _ => zero_Sharing
                end |}
  end.

Definition volumeSecretsFromGRPC (secrets : slice (option swarmapi.VolumeSecret))
  : may_panic (slice types.VolumeSecret) :=
  match secrets with
  | None => Return None
  | Some l =>
      call convertedSecrets <-
        for_each (fun secret =>
                    match secret with
                    | Some s => Return {| types.Key := swarmapi.Key s;
                                          types.Secret := swarmapi.Secret s |}
                    | None => Panic
                    end) l in
      Return (Some convertedSecrets)
  end.

Definition topologiesFromGRPC (tops : slice (option swarmapi.Topology)) : slice types.Topology :=
  match tops with
  | None => None
  | Some l => Some (map topologyFromGRPC l)
  end.

Definition topologyRequirementFromGRPC (top : option swarmapi.TopologyRequirement)
  : option types.TopologyRequirement :=
  match top with
  | None => None
  | Some t =>
      Some {| types.Requisite := topologiesFromGRPC (swarmapi.Requisite t);
              types.Preferred := topologiesFromGRPC (swarmapi.Preferred t) |}
  end.

Definition volumeSpecFromGRPC (spec : option swarmapi.VolumeSpec)
  : may_panic (option types.VolumeSpec) :=
  match spec with
  | None => Return None
  | Some s =>
      call driver <-
        match swarmapi.Spec_Driver s with
        | Some d => Return {| mount.Name := swarmapi.Driver_Name d;
                              mount.Options := swarmapi.Driver_Options d |}
        | None => Panic
        end in
      call secrets <- volumeSecretsFromGRPC (swarmapi.Secrets s) in
      Return (Some {| types.Spec_Annotations := annotationsFromGRPC (swarmapi.Spec_Annotations s);
                      types.Group := swarmapi.Group s;
                      types.Driver := Some driver;
                      types.AccessMode := accessModeFromGRPC (swarmapi.AccessMode s);
                      types.Secrets := secrets;
                      types.AccessibilityRequirements :=
                        topologyRequirementFromGRPC (swarmapi.AccessibilityRequirements s);
                      types.Spec_CapacityRange :=
                        capacityRangeFromGRPC (swarmapi.Spec_CapacityRange s);
                      types.Availability :=
                        volumeAvailabilityFromGRPC (swarmapi.Availability s) |})
  end.

Definition volumePublishStatusFromGRPC
    (publishStatus : slice (option swarmapi.VolumePublishStatus))
  : may_panic (slice (option types.VolumePublishStatus)) :=
  match publishStatus with
  | None => Return None
  | Some l =>
      call vps <-
        for_each (fun status =>
                    match status with
                    | Some st =>
                        let state :=
                          match swarmapi.State st with
                          | swarmapi.VolumePublishStatus_PENDING_PUBLISH =>
                              types.VolumePendingPublish
                          | swarmapi.VolumePublishStatus_PUBLISHED =>
                              types.VolumePublished
                          | swarmapi.VolumePublishStatus_PENDING_NODE_UNPUBLISH =>
                              types.VolumePendingNodeUnpublish
                          | swarmapi.VolumePublishStatus_PENDING_UNPUBLISH =>
                              types.VolumePendingUnpublish
                          | _ => zero_PublishState
                          end in
                        Return (Some {| types.NodeID := swarmapi.NodeID st;
                                        types.State := state;
                                        types.PublishContext := swarmapi.PublishContext st |})
                    | None => Panic
                    end) l in
      Return (Some vps)
  end.

Definition volumeInfoFromGRPC (info : option swarmapi.VolumeInfo) : option types.VolumeInfo :=
  match info with
  | None => None
  | Some i =>
      Some {| types.CapacityBytes := int_of_int64 (swarmapi.CapacityBytes i);
              types.VolumeContext := swarmapi.VolumeContext i;
              types.VolumeID := swarmapi.VolumeID i;
              types.AccessibleTopology := topologiesFromGRPC (swarmapi.AccessibleTopology i) |}
  end.

(** [VolumeFromGRPC(v)]; a nil [v] panics at [v.Spec]. *)
Definition VolumeFromGRPC (v : option swarmapi.Volume) : may_panic types.Volume :=
  match v with
  | None => Panic
  | Some vol =>
      call spec <- volumeSpecFromGRPC (Some (swarmapi.Spec vol)) in
      match spec with
      | None => Panic
      | Some sp =>
          call publishStatus <- volumePublishStatusFromGRPC (swarmapi.PublishStatus vol) in
          Return {| types.ID := swarmapi.ID vol;
                    types.Version_Index := swarmapi.Version_Index (swarmapi.Volume_Meta vol);
                    types.CreatedAt :=
                      TimestampFromProto (swarmapi.CreatedAt (swarmapi.Volume_Meta vol));
                    types.UpdatedAt :=
                      TimestampFromProto (swarmapi.UpdatedAt (swarmapi.Volume_Meta vol));
                    types.Spec := sp;
                    types.PublishStatus := publishStatus;
                    types.Volume_VolumeInfo := volumeInfoFromGRPC (swarmapi.Volume_VolumeInfo vol) |}
      end
  end.

(** [swarmSpec.X = append(swarmSpec.X, &swarmapi.Topology{Segments: top.Segments})]
    for each [top]. *)
Definition topologiesToGRPC (tops : slice types.Topology) : slice (option swarmapi.Topology) :=
  foldl (fun acc top => go_append acc (Some {| swarmapi.Segments := types.Segments top |}))
        None (elems tops).

(** [VolumeSpecToGRPC(spec)], for the non-nil [spec] its callers pass (the
    address of a variable). *)
Definition VolumeSpecToGRPC (spec : types.VolumeSpec) : swarmapi.VolumeSpec :=
  {| swarmapi.Spec_Annotations :=
       {| swarmapi.Annotations_Name := types.Name (types.Spec_Annotations spec);
          swarmapi.Annotations_Labels := types.Labels (types.Spec_Annotations spec) |};
     swarmapi.Group := types.Group spec;
     swarmapi.Spec_Driver :=
       match types.Driver spec with
       | Some d => Some {| swarmapi.Driver_Name := mount.Name d;
                           swarmapi.Driver_Options := mount.Options d |}
       | None => None
       end;
     swarmapi.AccessMode :=
       match types.AccessMode spec with
       | Some am =>
           Some {| swarmapi.Scope :=
                     match types.Scope am with
                     | types.VolumeScopeSingleNode => swarmapi.VolumeScopeSingleNode
                     | types.VolumeScopeMultiNode => swarmapi.VolumeScopeMultiNode
                     | _ => zero_swarm_Scope
                     end;
                   swarmapi.Sharing :=
                     match types.Sharing am with
                     | types.VolumeSharingNone => swarmapi.VolumeSharingNone
                     | types.VolumeSharingReadOnly => swarmapi.VolumeSharingReadOnly
                     | types.VolumeSharingOneWriter => swarmapi.VolumeSharingOneWriter
                     | types.VolumeSharingAll => swarmapi.VolumeSharingAll
                     | _ => zero_swarm_Sharing
                     end |}
       | None => None
       end;
     swarmapi.Secrets :=
       foldl (fun acc secret =>
                go_append acc (Some {| swarmapi.Key := types.Key secret;
                                       swarmapi.Secret := types.Secret secret |}))
             None (elems (types.Secrets spec));
     swarmapi.AccessibilityRequirements :=
       match types.AccessibilityRequirements spec with
       | Some ar =>
           Some {| swarmapi.Requisite := topologiesToGRPC (types.Requisite ar);
                   swarmapi.Preferred := topologiesToGRPC (types.Preferred ar) |}
       | None => None
       end;
     swarmapi.Spec_CapacityRange :=
       match types.Spec_CapacityRange spec with
       | Some cr =>
           Some {| swarmapi.RequiredBytes := int64_of_uint64 (types.RequiredBytes cr);
                   swarmapi.LimitBytes := int64_of_uint64 (types.LimitBytes cr) |}
       | None => None
       end;
     swarmapi.Availability :=
       match types.Availability spec with
       | types.VolumeAvailabilityActive => swarmapi.VolumeAvailabilityActive
       | types.VolumeAvailabilityPause => swarmapi.VolumeAvailabilityPause
       | types.VolumeAvailabilityDrain => swarmapi.VolumeAvailabilityDrain
       | _ => zero_swarm_Availability
       end |}.

End convert.

End convert.

(** * Part II: the vocabulary of the properties *)

(** ** Strings *)

(** [has_byte c s]: the byte [c] occurs in [s]. *)
Fixpoint has_byte (c : ascii) (s : string) : bool :=
  match s with
  | EmptyString => false
  | String x rest => Ascii.eqb x c || has_byte c rest
  end.

(** A string none of whose bytes [url.QueryEscape] changes. *)
Fixpoint unreserved (s : string) : bool :=
  match s with
  | EmptyString => true
  | String c rest => negb (url.shouldEscape c) && unreserved rest
  end.

(** ** The decoder, segment by segment *)

(** The segment [seg] splits on its first [=] into two parts that unescape
    to the key and the value of [kv]. *)
Definition segment_decodes (seg : string) (kv : string * string) : Prop :=
  exists rk rv,
    seg = rk ++ String "=" rv /\ has_byte "=" rk = false /\
    url.QueryUnescape rk = Ok kv.1 /\ url.QueryUnescape rv = Ok kv.2.

(** The segment [seg] makes the decoder fail with [e]: it has no [=], or
    one of its two parts does not unescape (the key part is tried first). *)
Definition segment_fails (seg : string) (e : error) : Prop :=
  (has_byte "=" seg = false /\ e = errors_New "invalid details format")
  \/ (exists rk rv,
        seg = rk ++ String "=" rv /\ has_byte "=" rk = false /\
        (url.QueryUnescape rk = Fail e
         \/ (is_Ok (url.QueryUnescape rk) = true /\ url.QueryUnescape rv = Fail e))).

(** The value of the last pair of [kvs] whose key is [key]. *)
Fixpoint last_value (key : string) (kvs : list (string * string)) : option string :=
  match kvs with
  | [] => None
  | kv :: rest =>
      match last_value key rest with
      | Some w => Some w
      | None => if String.eqb kv.1 key then Some kv.2 else None
      end
  end.

(** [detailsMap[k] = v] for each pair in turn. *)
Definition insert_all (acc : gmap string string) (kvs : list (string * string))
  : gmap string string :=
  foldl (fun m kv => <[kv.1 := kv.2]> m) acc kvs.

(** Pairs whose text survives the decoder untouched: no [=] in the key,
    and neither [%] nor [+] in the key or in the value. *)
Definition plain_pair (kv : string * string) : Prop :=
  has_byte "=" kv.1 = false /\
  has_byte "%" kv.1 = false /\ has_byte "+" kv.1 = false /\
  has_byte "%" kv.2 = false /\ has_byte "+" kv.2 = false.

(** ** The encoding in the words of the spec *)

(** Ascending byte order of the raw keys of two entries. *)
Definition raw_key_le (p q : string * string) : Prop := String.leb p.1 q.1 = true.

#[global] Instance raw_key_le_dec : RelDecision raw_key_le.
Proof. intros p q. unfold raw_key_le. apply _. Defined.

(** The encoding as the spec words it: every key and every value
    query-escaped, joined as [key=value], the pairs sorted by raw key in
    ascending byte order and joined with [,]. *)
Definition spec_encode (m : gmap string string) : string :=
  strings.Join
    (map (fun kv => url.QueryEscape kv.1 ++ "=" ++ url.QueryEscape kv.2)
         (merge_sort raw_key_le (map_to_list m)))
    ",".

(** ** Streams and channels *)

(** The stream of [msg] is one the request asked for. *)
Definition requested (config : backend.ContainerLogsConfig) (msg : backend.LogMessage) : bool :=
  String.eqb (backend.Source msg) "stdout" && backend.ShowStdout config
  || String.eqb (backend.Source msg) "stderr" && backend.ShowStderr config.

(** The receives of the messages [ms], one after the other. *)
Definition received (ms : list backend.LogMessage) : list httputils.event :=
  map (fun m => httputils.recv (Some m)) ms.

(** The data-channel receives of the messages [ms], each followed by a
    completed send. *)
Definition delivered (ms : list backend.LogMessage) : list daemon.event :=
  map (fun m => daemon.logs_Msg (Some m) daemon.inner_sent) ms.

(** ** A runtime to compute with

    Maps are ranged over in the order of [map_to_list] and [sort.Sort] is a
    merge sort.  It serves to evaluate the definitions on concrete inputs; the
    theorems hold for every runtime. *)

(** The order [sort.Sort] leaves a [byKey] in: [b] is not [Less] than [a]. *)
Definition key_le (a b : string) : Prop := byKey.Less b a = false.

#[global] Instance key_le_dec : RelDecision key_le.
Proof. intros a b. unfold key_le. apply _. Defined.

Definition reference_Error (e : error) : string :=
  match e with
  | errors_New text => text
  | url_EscapeError s => "invalid URL escape " ++ s
  | strconv_NumError num => "parsing " ++ num
  | logger_ErrReadLogsNotSupported => "configured logging driver does not support reading"
  | foreign_error text => text
  end.

Definition reference_Format (t : time.Time) (layout : string) : string :=
  match t with
  | time.zero => "0001-01-01T00:00:00.000000000Z"
  | time.Unix _ _ => layout
  end.

(** ** Sample inputs *)

Definition sample_message (source line : string) : backend.LogMessage :=
  {| backend.Line := line;
     backend.Source := source;
     backend.Timestamp := time.Unix 1 0;
     backend.Attrs := {["k" := "v"]};
     backend.Err := None |}.

Definition sample_config (showStdout showStderr : bool) (tail : string)
    (messages : option nat) : backend.ContainerLogsConfig :=
  {| backend.ShowStdout := showStdout;
     backend.ShowStderr := showStderr;
     backend.Follow := true;
     backend.Tail := tail;
     backend.Since := "";
     backend.Timestamps := true;
     backend.Details := true;
     backend.Messages := messages |}.

Definition sample_logger : logger.Logger :=
  {| logger.id := 1%nat; logger.is_LogReader := true |}.

Definition sample_container : container.Container :=
  {| container.RemovalInProgress := false;
     container.Dead := false;
     container.LogConfig_Type := "json-file";
     container.IsRunning := true;
     container.LogDriver := Some sample_logger;
     container.StartLogger := Fail (foreign_error "logger not started") |}.

Definition sample_daemon : daemon.Daemon :=
  {| daemon.GetContainer := fun name =>
       if String.eqb name "c1" then Ok sample_container
       else Fail (foreign_error "No such container");
     daemon.ParseTimestamps := fun value _ =>
       try sec <- strconv.Atoi value in Ok (sec, 0) |}.

(** ** Vocabulary of the further properties *)

(** The options of a log config, a nil map having none. *)
Definition options (cfg : containertypes.LogConfig) : gmap string string :=
  match containertypes.Config cfg with
  | Some m => m
  | None => ∅
  end.

(** The lane a normal message is routed to, by its source. *)
Definition lane_of (l : httputils.lanes) (msg : backend.LogMessage) : httputils.Writer :=
  if String.eqb (backend.Source msg) "stdout"
  then httputils.outStream l else httputils.errStream l.

(** The call is a [Write] on some writer. *)
Definition is_Write (c : httputils.call) : Prop :=
  match c with
  | httputils.Write _ _ => True
  | _ => False
  end.

(** The events on which the goroutine of [ContainerLogs] returns without
    sending: the context is done (in the outer or in the inner [select]),
    or the data channel is closed. *)
Definition stops (ev : daemon.event) : bool :=
  match ev with
  | daemon.ctx_Done => true
  | daemon.logs_Msg None _ => true
  | daemon.logs_Msg (Some _) daemon.inner_ctx_Done => true
  | _ => false
  end.

(** The messages the log source yields on its data channel, in order. *)
Definition data_messages (evs : list daemon.event) : list backend.LogMessage :=
  omap (fun ev => match ev with
                  | daemon.logs_Msg (Some m) _ => Some m
                  | _ => None
                  end) evs.

(** The goroutine returns on the events [evs]. *)
Definition returns (evs : list daemon.event) : bool := (daemon.pump evs).2.

(** The pair [key=value] with both sides query-escaped. *)
Definition escaped_pair (kv : string * string) : string :=
  url.QueryEscape kv.1 ++ "=" ++ url.QueryEscape kv.2.

(** A slice with the empty slice taken for nil. *)
Definition nil_if_empty {A : Type} (s : slice A) : slice A :=
  match s with
  | Some [] => None
  | _ => s
  end.

(** The ranges of [uint64] and [int64]. *)
Definition is_uint64 (x : Z) : Prop := 0 <= x < 2 ^ 64.
Definition is_int64 (x : Z) : Prop := - 2 ^ 63 <= x < 2 ^ 63.

(** The values of the engine's enumerations that the code names. *)
Definition named_Scope (s : types.VolumeScope) : bool :=
  match s with
  | types.Scope_other _ => false
  | _ => true
  end.

Definition named_Sharing (s : types.VolumeSharing) : bool :=
  match s with
  | types.Sharing_other _ => false
  | _ => true
  end.

Definition named_Availability (a : types.VolumeAvailability) : bool :=
  match a with
  | types.Availability_other _ => false
  | _ => true
  end.

(** No element of the slice is a nil pointer. *)
Definition no_nil {A : Type} (s : slice (option A)) : bool :=
  forallb (fun x => match x with Some _ => true | None => false end) (elems s).

(** The conversion of one publish status, state apart. *)
Definition same_publish_status (st : swarmapi.VolumePublishStatus)
    (st' : types.VolumePublishStatus) : Prop :=
  types.NodeID st' = swarmapi.NodeID st
  /\ types.PublishContext st' = swarmapi.PublishContext st.

(** A context to compute with: the zero values are the first constant of
    the swarmkit enumerations and the empty string of the engine's. *)
#[local] Instance sample_context : ConvertContext := {|
  zero_swarm_Scope := swarmapi.VolumeScopeSingleNode;
  zero_swarm_Sharing := swarmapi.VolumeSharingNone;
  zero_swarm_Availability := swarmapi.VolumeAvailabilityActive;
  zero_Scope := types.Scope_other "";
  zero_Sharing := types.Sharing_other "";
  zero_PublishState := types.PublishState_other "";
  annotationsFromGRPC := fun a =>
    {| types.Name := swarmapi.Annotations_Name a;
       types.Labels := swarmapi.Annotations_Labels a |};
  TimestampFromProto := fun ts =>
    match ts with
    | Some t => time.Unix (swarmapi.Seconds t) (swarmapi.Nanos t)
    | None => time.zero
    end
|}.

(** The volume spec of [TestVolumeSpecToGRPC]. *)
Definition test_spec : types.VolumeSpec :=
  {| types.Spec_Annotations :=
       {| types.Name := "volume1"; types.Labels := Some {["labeled" := "yeah"]} |};
     types.Group := "gronp";
     types.Driver :=
       Some {| mount.Name := "plug1"; mount.Options := Some {["options" := "yeah"]} |};
     types.AccessMode :=
       Some {| types.Scope := types.VolumeScopeMultiNode;
               types.Sharing := types.VolumeSharingAll |};
     types.Secrets :=
       Some [ {| types.Key := "key1"; types.Secret := "secret1" |};
              {| types.Key := "key2"; types.Secret := "secret2" |} ];
     types.AccessibilityRequirements :=
       Some {| types.Requisite :=
                 Some [ {| types.Segments := Some {["top1" := "yup"]} |};
                        {| types.Segments := Some {["top2" := "def"]} |};
                        {| types.Segments := Some {["top3" := "nah"]} |} ];
               types.Preferred := Some [] |};
     types.Spec_CapacityRange :=
       Some {| types.RequiredBytes := 1; types.LimitBytes := 0 |};
     types.Availability := types.Availability_other "" |}.

(** The goroutine [w] reading its log source with the tail [n] instead,
    and an outcome of [ContainerLogs] whose goroutine, if one was started,
    does so. *)
Definition worker_with_Tail (n : Z) (w : daemon.worker) : daemon.worker :=
  {| daemon.w_Messages := daemon.w_Messages w;
     daemon.w_readConfig :=
       {| logger.Since := logger.Since (daemon.w_readConfig w);
          logger.Tail := n;
          logger.Follow := logger.Follow (daemon.w_readConfig w) |};
     daemon.w_cLog := daemon.w_cLog w;
     daemon.w_container := daemon.w_container w |}.

Definition outcome_with_Tail (n : Z) (o : daemon.outcome) : daemon.outcome :=
  match o with
  | daemon.returned rerr acts started =>
      daemon.returned rerr acts (option_map (worker_with_Tail n) started)
  | daemon.panicked reason => daemon.panicked reason
  end.

(** * Part III: properties *)

(** ** The byte order on strings *)

Lemma ltb_irrefl (a : string) : String.ltb a a = false.
Proof.
  unfold String.ltb.
  destruct (String.compare a a) eqn:E; try reflexivity.
  pose proof (String.compare_antisym a a) as A. rewrite E in A. discriminate.
Qed.

Lemma ltb_asym (a b : string) : String.ltb a b = true -> String.ltb b a = false.
Proof.
  unfold String.ltb. rewrite (String.compare_antisym a b).
  destruct (String.compare b a); simpl; congruence.
Qed.

Lemma ltb_trans (a b c : string) :
  String.ltb a b = true -> String.ltb b c = true -> String.ltb a c = true.
Proof.
  unfold String.ltb. intros Hab Hbc.
  assert (OrderedTypeEx.String_as_OT.lt a c) as Hac.
  { apply OrderedTypeEx.String_as_OT.lt_trans with b;
      apply OrderedTypeEx.String_as_OT.cmp_lt; unfold OrderedTypeEx.String_as_OT.cmp.
    - destruct (String.compare a b); congruence.
    - destruct (String.compare b c); congruence. }
  apply OrderedTypeEx.String_as_OT.cmp_lt in Hac.
  unfold OrderedTypeEx.String_as_OT.cmp in Hac. rewrite Hac. reflexivity.
Qed.

Lemma ltb_trichotomy (a b : string) :
  String.ltb a b = true \/ a = b \/ String.ltb b a = true.
Proof.
  unfold String.ltb. rewrite (String.compare_antisym a b).
  destruct (String.compare b a) eqn:E; simpl; auto.
  right; left. symmetry. apply String.compare_eq_iff, E.
Qed.

Lemma leb_ltb (a b : string) : String.leb a b = true <-> String.ltb b a = false.
Proof.
  unfold String.leb, String.ltb. rewrite (String.compare_antisym b a).
  destruct (String.compare a b); simpl; split; congruence.
Qed.

#[global] Instance key_le_total : Total key_le.
Proof.
  intros a b. unfold key_le, byKey.Less.
  destruct (String.ltb (byKey.key b) (byKey.key a)) eqn:E; [right | left; reflexivity].
  apply ltb_asym, E.
Qed.

#[global] Instance key_le_trans : Transitive key_le.
Proof.
  intros a b c. unfold key_le, byKey.Less. intros Hab Hbc.
  destruct (String.ltb (byKey.key c) (byKey.key a)) eqn:E; [| reflexivity].
  destruct (ltb_trichotomy (byKey.key a) (byKey.key b)) as [H | [H | H]].
  - rewrite (ltb_trans _ _ _ E H) in Hbc. discriminate.
  - rewrite <- H in Hbc. congruence.
  - congruence.
Qed.

#[global] Instance raw_key_le_total : Total raw_key_le.
Proof. intros p q. unfold raw_key_le. apply String.leb_total. Qed.

#[global] Instance raw_key_le_trans : Transitive raw_key_le.
Proof.
  intros p q r. unfold raw_key_le. rewrite !leb_ltb. intros Hpq Hqr.
  destruct (String.ltb r.1 p.1) eqn:E; [| reflexivity].
  destruct (ltb_trichotomy p.1 q.1) as [H | [H | H]].
  - rewrite (ltb_trans _ _ _ E H) in Hqr. discriminate.
  - rewrite <- H in Hqr. congruence.
  - congruence.
Qed.

#[local] Instance reference_runtime : GoRuntime := {|
  map_range := map_to_list;
  map_range_perm := fun m => reflexivity (map_to_list m);
  sort_Sort := merge_sort key_le;
  sort_Sort_perm := merge_sort_Permutation key_le;
  sort_Sort_sorted := StronglySorted_merge_sort key_le;
  time_Format := reference_Format;
  error_Error := reference_Error;
  error_Error_New := fun text => eq_refl
|}.

(** ** The definitions on concrete inputs *)

Example ParseLogDetails_two :
  client.ParseLogDetails "k=v,l=w" = Ok (<["l" := "w"]> (<["k" := "v"]> ∅)).
Proof. vm_compute. reflexivity. Qed.

Example ParseLogDetails_escaped_eq :
  client.ParseLogDetails "a%3Db=1" = Ok {["a=b" := "1"]}.
Proof. vm_compute. reflexivity. Qed.

Example ParseLogDetails_plus :
  client.ParseLogDetails "a+b=c%2Cd" = Ok {["a b" := "c,d"]}.
Proof. vm_compute. reflexivity. Qed.

Example ParseLogDetails_bad_escape :
  client.ParseLogDetails "a=%zz9" = Fail (url_EscapeError "%zz").
Proof. vm_compute. reflexivity. Qed.

Example ParseLogDetails_short_escape :
  client.ParseLogDetails "a=%4" = Fail (url_EscapeError "%4").
Proof. vm_compute. reflexivity. Qed.

Example QueryEscape_sample : url.QueryEscape "a b,c=d/~" = "a+b%2Cc%3Dd%2F~".
Proof. vm_compute. reflexivity. Qed.

Example Atoi_100 : strconv.Atoi "100" = Ok 100.
Proof. reflexivity. Qed.

Example Atoi_neg : strconv.Atoi "-7" = Ok (-7).
Proof. reflexivity. Qed.

Example Atoi_all : strconv.Atoi "all" = Fail (strconv_NumError "all").
Proof. reflexivity. Qed.

Example Atoi_max : strconv.Atoi "9223372036854775808" = Fail (strconv_NumError "9223372036854775808").
Proof. reflexivity. Qed.

Example stringAttrs_two :
  httputils.stringAttrs (<["b" := "2"]> (<["a" := "1"]> ∅)) = "a=1,b=2".
Proof. vm_compute. reflexivity. Qed.

Example stringAttrs_sorts :
  httputils.stringAttrs (<["a" := "x"]> (<["zz" := "1"]> (<["m" := ""]> ∅))) = "a=x,m=,zz=1".
Proof. vm_compute. reflexivity. Qed.

Example spec_encode_sample :
  spec_encode (<["b" := "x,y"]> (<["a b" := "1"]> ∅)) = "a+b=1,b=x%2Cy".
Proof. vm_compute. reflexivity. Qed.

Example ContainerLogs_starts :
  daemon.ContainerLogs sample_daemon "c1" (sample_config true false "10" (Some 7%nat)) =
  daemon.returned None []
    (Some {| daemon.w_Messages := 7%nat;
             daemon.w_readConfig :=
               {| logger.Since := time.zero; logger.Tail := 10; logger.Follow := true |};
             daemon.w_cLog := sample_logger;
             daemon.w_container := sample_container |}).
Proof. reflexivity. Qed.

Example ContainerLogs_no_container :
  daemon.ContainerLogs sample_daemon "c2" (sample_config true false "10" (Some 7%nat)) =
  daemon.returned (Some (foreign_error "No such container")) [daemon.close_Messages] None.
Proof. reflexivity. Qed.

(** ** Facts about the string functions *)

Lemma append_assoc (a b c : string) : (a ++ b) ++ c = a ++ b ++ c.
Proof.
  induction a as [| x a IH]; [reflexivity |].
  change (String x ((a ++ b) ++ c) = String x (a ++ b ++ c)).
  f_equal. exact IH.
Qed.

Lemma has_byte_app c a b : has_byte c (a ++ b) = has_byte c a || has_byte c b.
Proof.
  induction a as [| x a IH]; simpl; [reflexivity |].
  rewrite IH. apply orb_assoc.
Qed.

Lemma cut_None c s : has_byte c s = false -> strings.cut s c = None.
Proof.
  induction s as [| x s IH]; simpl; [reflexivity |].
  destruct (Ascii.eqb x c); simpl; [discriminate |].
  intros H. rewrite (IH H). reflexivity.
Qed.

Lemma cut_app c a b :
  has_byte c a = false -> strings.cut (a ++ String c b) c = Some (a, b).
Proof.
  induction a as [| x a IH]; simpl.
  - rewrite Ascii.eqb_refl. reflexivity.
  - destruct (Ascii.eqb x c); simpl; [discriminate |].
    intros H. rewrite (IH H). reflexivity.
Qed.

Lemma cut_Some c s a b :
  strings.cut s c = Some (a, b) -> s = a ++ String c b /\ has_byte c a = false.
Proof.
  revert a. induction s as [| x s IH]; simpl; intros a; [discriminate |].
  destruct (Ascii.eqb x c) eqn:E.
  - intros [= <- <-]. apply Ascii.eqb_eq in E. subst x. split; reflexivity.
  - destruct (strings.cut s c) as [[a' b'] |] eqn:C; [| discriminate].
    intros [= <- <-]. destruct (IH a' eq_refl) as [-> Ha].
    simpl. rewrite E, Ha. split; reflexivity.
Qed.

Lemma cut_has_byte c s : strings.cut s c = None -> has_byte c s = false.
Proof.
  induction s as [| x s IH]; simpl; [reflexivity |].
  destruct (Ascii.eqb x c); simpl; [discriminate |].
  destruct (strings.cut s c) as [[a b] |]; [discriminate |].
  intros _. apply IH. reflexivity.
Qed.

Lemma SplitN_2 s c :
  strings.SplitN s c 2 =
  match strings.cut s c with
  | Some (a, b) => [a; b]
  | None => [s]
  end.
Proof. simpl. destruct (strings.cut s c) as [[a b] |]; reflexivity. Qed.

Lemma Split_nonempty s c : strings.Split s c <> [].
Proof.
  destruct s as [| x s]; simpl; [discriminate |].
  destruct (Ascii.eqb x c); [discriminate |].
  destruct (strings.Split s c); discriminate.
Qed.

Lemma Split_plain c s : has_byte c s = false -> strings.Split s c = [s].
Proof.
  induction s as [| x s IH]; simpl; [reflexivity |].
  destruct (Ascii.eqb x c); simpl; [discriminate |].
  intros H. rewrite (IH H). reflexivity.
Qed.

Lemma Split_app c a b :
  has_byte c a = false ->
  strings.Split (a ++ String c b) c = a :: strings.Split b c.
Proof.
  induction a as [| x a IH]; simpl.
  - rewrite Ascii.eqb_refl. reflexivity.
  - destruct (Ascii.eqb x c); simpl; [discriminate |].
    intros H. rewrite (IH H). reflexivity.
Qed.

Lemma Split_segments c s : Forall (fun seg => has_byte c seg = false) (strings.Split s c).
Proof.
  induction s as [| x s IH]; simpl.
  - constructor; [reflexivity | constructor].
  - destruct (Ascii.eqb x c) eqn:E.
    + constructor; [reflexivity | exact IH].
    + destruct (strings.Split s c) as [| seg segs].
      * constructor; [simpl; rewrite E; reflexivity | constructor].
      * inversion IH; subst. constructor; [simpl; rewrite E; assumption | assumption].
Qed.

Lemma Join_cons x y (l : list string) sep :
  strings.Join (x :: y :: l) sep = x ++ sep ++ strings.Join (y :: l) sep.
Proof. reflexivity. Qed.

Lemma Join_Split c s : strings.Join (strings.Split s c) (String c "") = s.
Proof.
  induction s as [| x s IH]; simpl; [reflexivity |].
  pose proof (Split_nonempty s c) as Hne.
  destruct (Ascii.eqb x c) eqn:E.
  - apply Ascii.eqb_eq in E. subst x.
    destruct (strings.Split s c) as [| seg segs]; [congruence |].
    rewrite Join_cons, IH. reflexivity.
  - destruct (strings.Split s c) as [| seg segs]; [congruence |].
    destruct segs as [| seg' segs].
    + simpl in *. congruence.
    + rewrite Join_cons in *. rewrite <- IH. reflexivity.
Qed.

Lemma Split_Join c (l : list string) :
  l <> [] -> Forall (fun seg => has_byte c seg = false) l ->
  strings.Split (strings.Join l (String c "")) c = l.
Proof.
  induction l as [| x l IH]; [congruence |].
  intros _ Hall. inversion Hall as [| ? ? Hx Hl]; subst.
  destruct l as [| y l].
  - simpl. apply Split_plain, Hx.
  - rewrite Join_cons.
    change (String c "" ++ strings.Join (y :: l) (String c ""))
      with (String c (strings.Join (y :: l) (String c ""))).
    rewrite Split_app by exact Hx.
    f_equal. apply IH; [discriminate | exact Hl].
Qed.

(** A string [url.QueryUnescape] returns as it is: no [%] and no [+]. *)
Lemma QueryUnescape_plain s :
  has_byte "%" s = false -> has_byte "+" s = false -> url.QueryUnescape s = Ok s.
Proof.
  induction s as [| x s IH]; simpl; [reflexivity |].
  destruct (Ascii.eqb x "%"); simpl; [discriminate |].
  destruct (Ascii.eqb x "+"); simpl; [discriminate |].
  intros H1 H2. rewrite (IH H1 H2). reflexivity.
Qed.

Lemma unreserved_has_byte c s :
  url.shouldEscape c = true -> unreserved s = true -> has_byte c s = false.
Proof.
  intros Hc. induction s as [| x s IH]; simpl; [reflexivity |].
  intros Hs. apply andb_true_iff in Hs as [Hx Hs]. rewrite (IH Hs), orb_false_r.
  destruct (Ascii.eqb_spec x c) as [-> | ?]; [| reflexivity].
  rewrite Hc in Hx. discriminate.
Qed.

Lemma unreserved_QueryEscape s : unreserved s = true -> url.QueryEscape s = s.
Proof.
  induction s as [| x s IH]; simpl; [reflexivity |].
  intros Hs. apply andb_true_iff in Hs as [Hx Hs]. rewrite (IH Hs).
  destruct (Ascii.eqb_spec x " ") as [-> | ?]; [discriminate |].
  destruct (url.shouldEscape x); [discriminate | reflexivity].
Qed.

(** ** The decoder *)

Lemma insert_all_lookup kvs : forall (acc : gmap string string) key,
  insert_all acc kvs !! key =
  match last_value key kvs with
  | Some v => Some v
  | None => acc !! key
  end.
Proof.
  induction kvs as [| [k v] kvs IH]; intros acc key; simpl; [reflexivity |].
  unfold insert_all in *. simpl. rewrite IH.
  destruct (last_value key kvs); [reflexivity |].
  destruct (String.eqb_spec k key) as [-> | Hne].
  - apply lookup_insert_eq.
  - apply lookup_insert_ne, Hne.
Qed.

Lemma parse_pairs_spec segs : forall acc,
  match client.parse_pairs segs acc with
  | Ok m =>
      exists kvs, Forall2 segment_decodes segs kvs /\ m = insert_all acc kvs
  | Fail e =>
      exists pre seg post kvs,
        segs = (pre ++ seg :: post)%list /\ Forall2 segment_decodes pre kvs /\
        segment_fails seg e
  end.
Proof.
  induction segs as [| seg segs IH]; intros acc.
  - simpl. exists []. split; [constructor | reflexivity].
  - cbn [client.parse_pairs]. rewrite SplitN_2.
    destruct (strings.cut seg "=") as [[rk rv] |] eqn:C.
    + apply cut_Some in C. destruct C as [Hseg Hrk].
      destruct (url.QueryUnescape rk) as [k | e] eqn:Uk; cbn [bind].
      * destruct (url.QueryUnescape rv) as [v | e] eqn:Uv; cbn [bind].
        -- specialize (IH (<[k := v]> acc)).
           assert (segment_decodes seg (k, v)) as Hdec.
           { exists rk, rv. repeat split; assumption. }
           destruct (client.parse_pairs segs (<[k := v]> acc)) as [m | e].
           ++ destruct IH as (kvs & Hall & ->).
              exists ((k, v) :: kvs). split; [constructor; assumption | reflexivity].
           ++ destruct IH as (pre & bad & post & kvs & -> & Hall & Hbad).
              exists (seg :: pre), bad, post, ((k, v) :: kvs).
              repeat split; [constructor; assumption | assumption].
        -- exists [], seg, segs, []. repeat split; [constructor |].
           right. exists rk, rv. repeat split; try assumption.
           right. rewrite Uk. split; [reflexivity | assumption].
      * exists [], seg, segs, []. repeat split; [constructor |].
        right. exists rk, rv. repeat split; try assumption. left. exact Uk.
    + exists [], seg, segs, []. repeat split; [constructor |].
      left. split; [apply cut_has_byte, C | reflexivity].
Qed.

Lemma parse_pairs_plain es : forall acc,
  Forall plain_pair es ->
  client.parse_pairs (map httputils.pair_string es) acc = Ok (insert_all acc es).
Proof.
  induction es as [| [k v] es IH]; intros acc Hall; [reflexivity |].
  inversion Hall as [| ? ? (Hk & Hk1 & Hk2 & Hv1 & Hv2) Hes]; subst.
  cbn [fst snd] in Hk, Hk1, Hk2, Hv1, Hv2.
  cbn [map client.parse_pairs]. rewrite SplitN_2.
  unfold httputils.pair_string at 1. cbn [fst snd].
  change (k ++ "=" ++ v) with (k ++ String "=" v).
  rewrite cut_app by exact Hk.
  rewrite (QueryUnescape_plain k Hk1 Hk2), (QueryUnescape_plain v Hv1 Hv2).
  cbn [bind]. rewrite IH by exact Hes. reflexivity.
Qed.

Lemma last_value_NoDup key v (es : list (string * string)) :
  NoDup es.*1 -> (last_value key es = Some v <-> (key, v) ∈ es).
Proof.
  induction es as [| [k w] es IH]; simpl.
  - intros _. split; [discriminate | intros H; inversion H].
  - intros Hnd. apply NoDup_cons in Hnd as [Hk Hnd]. specialize (IH Hnd).
    destruct (last_value key es) as [u |] eqn:L.
    + assert ((key, u) ∈ es) as Hin.
      { destruct (decide (u = v)) as [-> | Hne]; [apply IH; reflexivity |].
        clear IH. revert L. clear. induction es as [| [k w] es IH]; simpl; [discriminate |].
        destruct (last_value key es) as [u' |].
        - intros [= <-]. right. apply IH. reflexivity.
        - destruct (String.eqb_spec k key) as [-> | ?]; [| discriminate].
          intros [= <-]. left. }
      split.
      * intros [= <-]. right. exact Hin.
      * intros Hv. apply elem_of_cons in Hv as [[= -> ->] | Hv].
        -- exfalso. apply Hk. apply list_elem_of_fmap. exists (k, u). split; [reflexivity | exact Hin].
        -- apply IH, Hv.
    + destruct (String.eqb_spec k key) as [-> | Hne].
      * split.
        -- intros [= ->]. left.
        -- intros Hv. apply elem_of_cons in Hv as [[= ->] | Hv]; [reflexivity |].
           exfalso. apply Hk. apply list_elem_of_fmap. exists (key, v). split; [reflexivity | exact Hv].
      * split; [discriminate |].
        intros Hv. apply elem_of_cons in Hv as [[= -> ->] | Hv]; [congruence |].
        apply IH in Hv. discriminate.
Qed.

(** Inserting the entries of a map, in any order, builds that map. *)
Lemma insert_all_entries (m : gmap string string) es :
  map_to_list m ≡ₚ es -> insert_all ∅ es = m.
Proof.
  intros Hperm. apply map_eq. intros key.
  rewrite insert_all_lookup, lookup_empty.
  assert (NoDup es.*1) as Hnd.
  { rewrite <- Hperm. apply NoDup_fst_map_to_list. }
  apply option_eq. intros v.
  rewrite <- elem_of_map_to_list, Hperm, <- (last_value_NoDup key v es Hnd).
  destruct (last_value key es); split; congruence.
Qed.

(** ** The encoder *)

Lemma key_pair_string k v :
  has_byte "=" k = false -> byKey.key (httputils.pair_string (k, v)) = k.
Proof.
  intros Hk. unfold byKey.key, httputils.pair_string. cbn [fst snd].
  change (k ++ "=" ++ v) with (k ++ String "=" v).
  rewrite Split_app by exact Hk. reflexivity.
Qed.

Lemma sorted_by_Less_sorted_by_key (es : list (string * string)) :
  Forall (fun kv => has_byte "=" kv.1 = false) es ->
  StronglySorted key_le (map httputils.pair_string es) ->
  StronglySorted raw_key_le es.
Proof.
  induction es as [| [k v] es IH]; intros Hkeys Hsorted; [constructor |].
  inversion Hkeys as [| ? ? Hk Hes]; subst. cbn [fst] in Hk.
  cbn [map] in Hsorted. apply StronglySorted_inv in Hsorted as [Hrest Hhead].
  constructor; [apply IH; assumption |].
  apply Forall_forall. intros [k' v'] Hin.
  rewrite Forall_forall in Hhead.
  specialize (Hhead (httputils.pair_string (k', v'))).
  unfold key_le, byKey.Less in Hhead.
  rewrite Forall_forall in Hes. specialize (Hes (k', v') Hin). cbn [fst] in Hes.
  rewrite (key_pair_string k v Hk), (key_pair_string k' v' Hes) in Hhead.
  unfold raw_key_le. cbn [fst]. apply leb_ltb, Hhead.
  apply list_elem_of_In, in_map, list_elem_of_In, Hin.
Qed.

Section encoder.
Context `{GoRuntime}.

(** What [stringAttrs] joins: the pair strings of the entries of [a], in
    some order. *)
Lemma sorted_pairs (a : gmap string string) :
  exists es,
    sort_Sort (map httputils.pair_string (map_range a)) = map httputils.pair_string es
    /\ map_to_list a ≡ₚ es.
Proof.
  apply Permutation_map_inv.
  rewrite sort_Sort_perm. apply Permutation_map, map_range_perm.
Qed.

Lemma stringAttrs_empty : httputils.stringAttrs ∅ = "".
Proof.
  unfold httputils.stringAttrs.
  destruct (sorted_pairs ∅) as (es & -> & Hes).
  rewrite map_to_list_empty in Hes. apply Permutation_nil_l in Hes. subst es.
  reflexivity.
Qed.

Lemma stringAttrs_singleton k v :
  httputils.stringAttrs {[k := v]} = k ++ "=" ++ v.
Proof.
  unfold httputils.stringAttrs.
  destruct (sorted_pairs {[k := v]}) as (es & -> & Hes).
  rewrite map_to_list_singleton in Hes. apply Permutation_singleton_l in Hes. subst es.
  reflexivity.
Qed.

(** Decoding the encoding of a non-empty map of pairs whose text needs
    no escaping, and has no [,], gives the map back. *)
Lemma decode_stringAttrs_plain (m : gmap string string) :
  m <> ∅ ->
  map_Forall (fun k v => plain_pair (k, v) /\
                         has_byte "," k = false /\ has_byte "," v = false) m ->
  client.ParseLogDetails (httputils.stringAttrs m) = Ok m.
Proof.
  intros Hne Hall.
  unfold httputils.stringAttrs, client.ParseLogDetails.
  destruct (sorted_pairs m) as (es & -> & Hes).
  assert (Forall (fun kv => plain_pair kv /\
                            has_byte "," kv.1 = false /\ has_byte "," kv.2 = false) es)
    as Hall'.
  { apply Forall_forall. intros [k v] Hin. rewrite <- Hes in Hin.
    apply elem_of_map_to_list in Hin. exact (Hall k v Hin). }
  change "," with (String "," "") at 1.
  rewrite Split_Join.
  - rewrite parse_pairs_plain.
    + f_equal. apply insert_all_entries, Hes.
    + eapply Forall_impl; [exact Hall' |]. intros kv Hkv. apply Hkv.
  - destruct es as [| e es]; [| discriminate].
    apply Permutation_nil_r in Hes. apply map_to_list_empty_iff in Hes. contradiction.
  - apply Forall_fmap. eapply Forall_impl; [exact Hall' |].
    intros [k v] (_ & Hk & Hv). cbn [fst snd] in *.
    unfold httputils.pair_string. cbn [fst snd compose].
    rewrite !has_byte_app, Hk, Hv. reflexivity.
Qed.

End encoder.

Section encoder_order.
Context `{GoRuntime}.

(** When no key contains [=], [stringAttrs] is the pairs [key=value],
    unescaped, in ascending order of the keys, joined with [,]: the order
    in which the map is ranged over and the instability of the sort do not
    show. *)
Lemma stringAttrs_sorted_by_key (a : gmap string string) :
  map_Forall (fun k _ => has_byte "=" k = false) a ->
  httputils.stringAttrs a =
  strings.Join (map httputils.pair_string (merge_sort raw_key_le (map_to_list a))) ",".
Proof.
  intros Hkeys. unfold httputils.stringAttrs.
  pose proof (sort_Sort_sorted (map httputils.pair_string (map_range a))) as Hsorted.
  destruct (sorted_pairs a) as (es & Hes & Hperm). rewrite Hes in *.
  f_equal. f_equal.
  apply (StronglySorted_unique_strong raw_key_le).
  - intros [k1 v1] [k2 v2] H1 H2 H12 H21.
    unfold raw_key_le in H12, H21. cbn [fst] in H12, H21.
    pose proof (String.leb_antisym _ _ H12 H21) as ->.
    rewrite <- Hperm in H1. rewrite merge_sort_Permutation in H2.
    apply elem_of_map_to_list in H1, H2. congruence.
  - apply sorted_by_Less_sorted_by_key; [| exact Hsorted].
    apply Forall_forall. intros [k v] Hin. rewrite <- Hperm in Hin.
    apply elem_of_map_to_list in Hin. exact (Hkeys k v Hin).
  - apply StronglySorted_merge_sort; apply _.
  - rewrite merge_sort_Permutation. symmetry. exact Hperm.
Qed.

(** On mappings whose keys and values need no escaping, the code's
    encoding is the one the spec describes. *)
Lemma stringAttrs_unreserved (a : gmap string string) :
  map_Forall (fun k v => unreserved k = true /\ unreserved v = true) a ->
  httputils.stringAttrs a = spec_encode a.
Proof.
  intros Hall. rewrite stringAttrs_sorted_by_key.
  - unfold spec_encode. f_equal. apply map_ext_in. intros [k v] Hin.
    apply list_elem_of_In in Hin. rewrite merge_sort_Permutation in Hin.
    apply elem_of_map_to_list in Hin. destruct (Hall k v Hin) as [Hk Hv].
    cbn [fst snd] in *. unfold httputils.pair_string. cbn [fst snd].
    rewrite (unreserved_QueryEscape k Hk), (unreserved_QueryEscape v Hv). reflexivity.
  - intros k v Hkv. destruct (Hall k v Hkv) as [Hk _].
    apply unreserved_has_byte; [reflexivity | exact Hk].
Qed.

End encoder_order.

(** ** The attribute codec: claims *)

(** C1 (the code departs from the claim).  The claim has [stringAttrs]
    query-escape every key and every value before joining them, and the
    documentation of [ParseLogDetails] says the same of the format.  The
    code joins the raw key and the raw value: on the mapping with the
    single entry ["a b" -> "c d"] it yields ["a b=c d"] under every
    runtime, where the encoding the claim describes is ["a+b=c+d"]; and
    the entry ["a+b" -> "c"] is written as ["a+b=c"], which the decoder
    reads back as the key ["a b"]. *)
Theorem C1_stringAttrs_does_not_escape (R : GoRuntime) :
  httputils.stringAttrs {["a b" := "c d"]} = "a b=c d"
  /\ spec_encode {["a b" := "c d"]} = "a+b=c+d"
  /\ httputils.stringAttrs {["a b" := "c d"]} <> spec_encode {["a b" := "c d"]}
  /\ httputils.stringAttrs {["a+b" := "c"]} = "a+b=c"
  /\ client.ParseLogDetails (httputils.stringAttrs {["a+b" := "c"]}) = Ok {["a b" := "c"]}.
Proof.
  rewrite !stringAttrs_singleton.
  repeat split; try (vm_compute; reflexivity).
  vm_compute. discriminate.
Qed.

(** C2, the claim as stated, fails: the empty mapping has no key or value
    at all, so none with a byte sequence that cannot be unescaped, yet its
    encoding is the empty string, which the decoder rejects. *)
Lemma C2_roundtrip_fails_on_empty_map :
  ~ (forall (R : GoRuntime) (m : gmap string string),
       map_Forall (fun k v => is_Ok (url.QueryUnescape k) = true /\
                              is_Ok (url.QueryUnescape v) = true) m ->
       client.ParseLogDetails (httputils.stringAttrs m) = Ok m).
Proof.
  intros Hclaim.
  specialize (Hclaim reference_runtime ∅ (map_Forall_empty _)).
  vm_compute in Hclaim. discriminate.
Qed.

(** C2 (amended).  For every non-empty attribute mapping whose keys and
    values consist of bytes that query-escaping leaves unchanged (letters,
    digits, [-], [_], [.], [~]), decoding the encoding succeeds and yields
    that same mapping, whatever order the map is ranged over. *)
Theorem C2_roundtrip_nonempty_unreserved (R : GoRuntime) (m : gmap string string) :
  m <> ∅ ->
  map_Forall (fun k v => unreserved k = true /\ unreserved v = true) m ->
  client.ParseLogDetails (httputils.stringAttrs m) = Ok m.
Proof.
  intros Hne Hall. apply decode_stringAttrs_plain; [exact Hne |].
  intros k v Hkv. destruct (Hall k v Hkv) as [Hk Hv].
  unfold plain_pair. cbn [fst snd].
  repeat split; apply unreserved_has_byte; try assumption; reflexivity.
Qed.

(** C2 (amended) on the mapping [{env: prod, tag: v1.2}]. *)
Lemma C2_roundtrip_witness :
  client.ParseLogDetails
    (@httputils.stringAttrs reference_runtime (<["tag" := "v1.2"]> {["env" := "prod"]}))
  = Ok (<["tag" := "v1.2"]> {["env" := "prod"]}).
Proof.
  apply (C2_roundtrip_nonempty_unreserved reference_runtime).
  - apply insert_non_empty.
  - apply map_Forall_insert_2; [vm_compute; split; reflexivity |].
    apply map_Forall_singleton. vm_compute. split; reflexivity.
Defined.

(** C6.  [ParseLogDetails] splits its input on [,] (the segments contain
    no [,] and joined with [,] give the input back) and each segment on
    its first [=] into at most two parts.  It succeeds exactly when every
    segment has an [=] and both of its parts unescape; the result maps each
    decoded key to the value of its last occurrence, in whatever order the
    segments come.  Otherwise the error is that of the first offending
    segment: the malformed-input error when it has no [=], the unescaping
    error of the part that fails when it has one.  In particular
    ["a=1,b"] is rejected as malformed. *)
Theorem C6_ParseLogDetails_decoding (s : string) :
  let segs := strings.Split s "," in
  strings.Join segs "," = s
  /\ Forall (fun seg => has_byte "," seg = false) segs
  /\ (forall seg,
        (has_byte "=" seg = false /\ strings.SplitN seg "=" 2 = [seg])
        \/ (exists rk rv, seg = rk ++ String "=" rv /\ has_byte "=" rk = false /\
                          strings.SplitN seg "=" 2 = [rk; rv]))
  /\ match client.ParseLogDetails s with
     | Ok m =>
         exists kvs,
           Forall2 segment_decodes segs kvs /\
           forall key, m !! key = last_value key kvs
     | Fail e =>
         exists pre seg post kvs,
           segs = (pre ++ seg :: post)%list /\
           Forall2 segment_decodes pre kvs /\
           segment_fails seg e
     end
  /\ client.ParseLogDetails "a=1,b" = Fail (errors_New "invalid details format")
  /\ client.ParseLogDetails "b=1,a=2,b=3" = Ok (<["b" := "3"]> {["a" := "2"]}).
Proof.
  cbn zeta. split; [apply (Join_Split ",") |].
  split; [apply Split_segments |].
  split.
  { intros seg. rewrite SplitN_2.
    destruct (strings.cut seg "=") as [[rk rv] |] eqn:C.
    - right. apply cut_Some in C as [-> Hrk]. exists rk, rv. auto.
    - left. split; [apply cut_has_byte, C | reflexivity]. }
  split.
  { unfold client.ParseLogDetails.
    pose proof (parse_pairs_spec (strings.Split s ",") ∅) as Hspec.
    destruct (client.parse_pairs (strings.Split s ",") ∅) as [m | e]; [| exact Hspec].
    destruct Hspec as (kvs & Hall & ->). exists kvs. split; [exact Hall |].
    intros key. rewrite insert_all_lookup, lookup_empty.
    destruct (last_value key kvs); reflexivity. }
  split; vm_compute; reflexivity.
Qed.

(** C10.  [ParseLogDetails] applied to the empty string returns the
    malformed-input error, not an empty mapping; [stringAttrs] renders the
    empty mapping as the empty string, so the encoding of the empty
    mapping does not decode back to it. *)
Theorem C10_empty_string_is_rejected (R : GoRuntime) :
  client.ParseLogDetails "" = Fail (errors_New "invalid details format")
  /\ httputils.stringAttrs ∅ = ""
  /\ client.ParseLogDetails (httputils.stringAttrs ∅) <> Ok ∅.
Proof.
  rewrite stringAttrs_empty. repeat split. discriminate.
Qed.

(** ** The Multiplexing Writer: claims *)

Section writer_facts.
Context `{GoRuntime}.
Variable config : backend.ContainerLogsConfig.
Variable l : httputils.lanes.

(** Normal messages are written one after the other, then the loop goes
    on with what follows. *)
Lemma loop_normal ms evs :
  Forall (fun m => backend.Err m = None) ms ->
  httputils.loop config l (received ms ++ evs)%list =
  let '(calls, ret, unread) := httputils.loop config l evs in
  ((List.concat (map (httputils.write_message config l) ms) ++ calls)%list, ret, unread).
Proof.
  induction ms as [| m ms IH]; intros Hall.
  - simpl. destruct (httputils.loop config l evs) as [[calls ret] unread]. reflexivity.
  - inversion Hall as [| ? ? Hm Hms]; subst.
    cbn [received map app httputils.loop]. rewrite Hm.
    fold (received ms). rewrite (IH Hms).
    destruct (httputils.loop config l evs) as [[calls ret] unread].
    cbn [List.concat map]. rewrite <- app_assoc. reflexivity.
Qed.

Lemma write_message_cases msg :
  httputils.write_message config l msg =
  if String.eqb (backend.Source msg) "stdout" && backend.ShowStdout config
  then [httputils.Write (httputils.outStream l) (httputils.logLine_of config msg)]
  else if String.eqb (backend.Source msg) "stderr" && backend.ShowStderr config
  then [httputils.Write (httputils.errStream l) (httputils.logLine_of config msg)]
  else [].
Proof.
  unfold httputils.write_message.
  destruct (String.eqb_spec (backend.Source msg) "stdout") as [E | ?]; cbn [andb].
  - rewrite E. cbn [andb String.eqb Ascii.eqb Bool.eqb].
    destruct (backend.ShowStdout config); reflexivity.
  - destruct (String.eqb (backend.Source msg) "stderr" && backend.ShowStderr config);
      reflexivity.
Qed.

End writer_facts.

Section writer_more.
Context `{GoRuntime}.
Variable config : backend.ContainerLogsConfig.
Variable l : httputils.lanes.

Lemma write_message_requested msg :
  httputils.write_message config l msg =
  if requested config msg
  then [httputils.Write (lane_of l msg) (httputils.logLine_of config msg)]
  else [].
Proof.
  rewrite write_message_cases. unfold requested, lane_of.
  destruct (String.eqb_spec (backend.Source msg) "stdout") as [E | ?]; cbn [andb orb].
  - rewrite E. cbn [String.eqb Ascii.eqb Bool.eqb andb orb].
    destruct (backend.ShowStdout config); reflexivity.
  - reflexivity.
Qed.

Lemma writes_of_messages ms :
  List.concat (map (httputils.write_message config l) ms) =
  map (fun m => httputils.Write (lane_of l m) (httputils.logLine_of config m))
      (List.filter (requested config) ms).
Proof.
  induction ms as [| m ms IH]; [reflexivity |].
  cbn [map List.concat List.filter]. rewrite IH, write_message_requested.
  destruct (requested config m); reflexivity.
Qed.

Lemma write_message_Write msg : Forall is_Write (httputils.write_message config l msg).
Proof.
  rewrite write_message_requested. destruct (requested config msg); repeat constructor.
Qed.

Lemma write_message_length msg : (List.length (httputils.write_message config l msg) <= 1)%nat.
Proof.
  rewrite write_message_requested. destruct (requested config msg); simpl; lia.
Qed.

Lemma loop_shape evs :
  exists consumed,
    evs = (consumed ++ (httputils.loop config l evs).2)%list
    /\ Forall is_Write (httputils.loop config l evs).1.1
    /\ (List.length (httputils.loop config l evs).1.1 <= List.length consumed)%nat.
Proof.
  induction evs as [| ev evs IH].
  - exists []. repeat split; [constructor | simpl; lia].
  - destruct ev as [| [msg |]].
    + exists [httputils.ctx_Done]. repeat split; [constructor | simpl; lia].
    + cbn [httputils.loop]. destruct (backend.Err msg) as [e |].
      * exists [httputils.recv (Some msg)]. repeat split; [repeat constructor | simpl; lia].
      * destruct IH as (consumed & Hevs & Hw & Hlen).
        destruct (httputils.loop config l evs) as [[calls ret] unread].
        cbn [fst snd] in *. exists (httputils.recv (Some msg) :: consumed).
        repeat split.
        -- cbn [app]. rewrite <- Hevs. reflexivity.
        -- apply Forall_app. split; [apply write_message_Write | exact Hw].
        -- rewrite length_app. pose proof (write_message_length msg). simpl. lia.
    + exists [httputils.recv None]. repeat split; [constructor | simpl; lia].
Qed.

End writer_more.

(** C5.  Whatever normal messages came first, when the writer receives a
    message that carries a terminal error it makes exactly one more write,
    the line ["Error grabbing logs: <error>\n"] on the system-error lane,
    and returns (closing the sink): the events still queued are left
    unread and nothing of them is written. *)
Theorem C5_terminal_error_stops_the_writer (R : GoRuntime)
    (config : backend.ContainerLogsConfig) (mux : bool)
    (before : list backend.LogMessage) (msg : backend.LogMessage) (e : error)
    (queued : list httputils.event) :
  Forall (fun m => backend.Err m = None) before ->
  backend.Err msg = Some e ->
  httputils.WriteLogStream config mux
    (received before ++ httputils.recv (Some msg) :: queued)%list
  = ((httputils.Flush ::
      List.concat (map (httputils.write_message config (httputils.make_lanes mux)) before)
      ++ [httputils.Write (httputils.sysErrStream (httputils.make_lanes mux))
            ("Error grabbing logs: " ++ error_Error e ++ String "010" "");
          httputils.Close])%list,
     queued).
Proof.
  intros Hbefore Herr. unfold httputils.WriteLogStream.
  rewrite (loop_normal config _ before _ Hbefore).
  cbn [httputils.loop]. rewrite Herr.
  rewrite <- app_assoc. reflexivity.
Qed.

(** C5 on a run: a stdout message, a terminal error, and a stderr message
    still queued behind it. *)
Lemma C5_terminal_error_witness :
  @httputils.WriteLogStream reference_runtime (sample_config true true "all" (Some 7%nat)) true
    [httputils.recv (Some (sample_message "stdout" "one"));
     httputils.recv (Some (daemon.error_message (foreign_error "boom")));
     httputils.recv (Some (sample_message "stderr" "two"))]
  = ([httputils.Flush;
      httputils.Write (httputils.StdWriter stdcopy.Stdout)
        "2006-01-02T15:04:05.000000000Z07:00 k=v one";
      httputils.Write (httputils.StdWriter stdcopy.Systemerr)
        ("Error grabbing logs: boom" ++ String "010" "");
      httputils.Close],
     [httputils.recv (Some (sample_message "stderr" "two"))]).
Proof.
  exact (C5_terminal_error_stops_the_writer reference_runtime
           (sample_config true true "all" (Some 7%nat)) true
           [sample_message "stdout" "one"]
           (daemon.error_message (foreign_error "boom")) (foreign_error "boom")
           [httputils.recv (Some (sample_message "stderr" "two"))]
           ltac:(repeat constructor) eq_refl).
Defined.

(** C7.  With details and timestamps both configured, the bytes written
    for a normal message are the timestamp string, one space, the encoding
    of the message's attributes, one space, then the raw payload; they go
    to the lane of the message's source, and the loop carries on with the
    next event. *)
Theorem C7_timestamp_then_details_then_payload (R : GoRuntime)
    (config : backend.ContainerLogsConfig) (mux : bool)
    (msg : backend.LogMessage) (rest : list httputils.event) :
  backend.Details config = true ->
  backend.Timestamps config = true ->
  backend.Err msg = None ->
  let line :=
    time_Format (backend.Timestamp msg) jsonlog.RFC3339NanoFixed ++ " " ++
    httputils.stringAttrs (backend.Attrs msg) ++ " " ++ backend.Line msg in
  let lanes := httputils.make_lanes mux in
  let written :=
    if String.eqb (backend.Source msg) "stdout" && backend.ShowStdout config
    then [httputils.Write (httputils.outStream lanes) line]
    else if String.eqb (backend.Source msg) "stderr" && backend.ShowStderr config
    then [httputils.Write (httputils.errStream lanes) line]
    else [] in
  httputils.logLine_of config msg = line
  /\ httputils.write_message config lanes msg = written
  /\ httputils.loop config lanes (httputils.recv (Some msg) :: rest) =
     let '(calls, ret, unread) := httputils.loop config lanes rest in
     ((written ++ calls)%list, ret, unread).
Proof.
  intros Hd Ht Herr. cbn zeta.
  assert (httputils.logLine_of config msg =
          time_Format (backend.Timestamp msg) jsonlog.RFC3339NanoFixed ++ " " ++
          httputils.stringAttrs (backend.Attrs msg) ++ " " ++ backend.Line msg) as Hline.
  { unfold httputils.logLine_of. rewrite Hd, Ht. rewrite !append_assoc. reflexivity. }
  assert (httputils.write_message config (httputils.make_lanes mux) msg =
          if String.eqb (backend.Source msg) "stdout" && backend.ShowStdout config
          then [httputils.Write (httputils.outStream (httputils.make_lanes mux))
                  (time_Format (backend.Timestamp msg) jsonlog.RFC3339NanoFixed ++ " " ++
                   httputils.stringAttrs (backend.Attrs msg) ++ " " ++ backend.Line msg)]
          else if String.eqb (backend.Source msg) "stderr" && backend.ShowStderr config
          then [httputils.Write (httputils.errStream (httputils.make_lanes mux))
                  (time_Format (backend.Timestamp msg) jsonlog.RFC3339NanoFixed ++ " " ++
                   httputils.stringAttrs (backend.Attrs msg) ++ " " ++ backend.Line msg)]
          else []) as Hwritten.
  { rewrite write_message_cases, Hline. reflexivity. }
  split; [exact Hline |]. split; [exact Hwritten |].
  cbn [httputils.loop]. rewrite Herr, Hwritten. reflexivity.
Qed.

(** C7 on a stderr message with the attribute [k=v]. *)
Lemma C7_order_witness :
  @httputils.logLine_of reference_runtime (sample_config true true "all" (Some 7%nat))
    (sample_message "stderr" "payload")
  = "2006-01-02T15:04:05.000000000Z07:00 k=v payload".
Proof.
  exact (proj1 (C7_timestamp_then_details_then_payload reference_runtime
                  (sample_config true true "all" (Some 7%nat)) false
                  (sample_message "stderr" "payload") [] eq_refl eq_refl eq_refl)).
Defined.

(** ** The Stream Pump: claims *)

Lemma pump_delivered ms evs :
  daemon.pump (delivered ms ++ evs)%list =
  let '(acts, ret) := daemon.pump evs in
  ((map daemon.send ms ++ acts)%list, ret).
Proof.
  induction ms as [| m ms IH].
  - simpl. destruct (daemon.pump evs). reflexivity.
  - cbn [delivered map app daemon.pump]. fold (delivered ms). rewrite IH.
    destruct (daemon.pump evs). reflexivity.
Qed.

Lemma sent_app a b : daemon.sent (a ++ b)%list = (daemon.sent a ++ daemon.sent b)%list.
Proof. unfold daemon.sent. apply omap_app. Qed.


Lemma sent_deferred w : daemon.sent (daemon.deferred w) = [].
Proof. unfold daemon.deferred. destruct (decide _); reflexivity. Qed.




(** C4, the claim as stated, fails: a request that asks for neither
    stream, on a channel the caller supplied, gets its error back with the
    channel closed by the deferred cleanup, which is a side effect on the
    channel. *)
Lemma C4_error_return_closes_channel :
  ~ (forall d name config e,
       daemon.body d name config = Fail e ->
       daemon.ContainerLogs d name config = daemon.returned (Some e) [] None).
Proof.
  intros Hclaim.
  specialize (Hclaim sample_daemon "c1" (sample_config false false "all" (Some 7%nat))
                (errors_New "You must choose at least one stream") eq_refl).
  discriminate Hclaim.
Qed.

(** C4 (amended).  On a request with a channel, when validation fails
    [ContainerLogs] returns that error synchronously, starts no goroutine,
    sends nothing on [config.Messages] and closes it, once; a request that
    asks for neither stdout nor stderr fails validation with "You must
    choose at least one stream". *)
Theorem C4_validation_error_closes_channel (d : daemon.Daemon) (name : string)
    (config : backend.ContainerLogsConfig) (ch : nat) (e : error) :
  backend.Messages config = Some ch ->
  daemon.body d name config = Fail e ->
  daemon.ContainerLogs d name config
  = daemon.returned (Some e) [daemon.close_Messages] None
  /\ (backend.ShowStdout config || backend.ShowStderr config = false ->
      e = errors_New "You must choose at least one stream").
Proof.
  intros Hch Hbody. split.
  - unfold daemon.ContainerLogs. rewrite Hbody, Hch. reflexivity.
  - intros Hnone. unfold daemon.body in Hbody. rewrite Hch, Hnone in Hbody.
    cbn in Hbody. congruence.
Qed.

(** C4 (amended) on a request that asks for neither stream. *)
Lemma C4_validation_error_witness :
  daemon.ContainerLogs sample_daemon "c1" (sample_config false false "all" (Some 7%nat))
  = daemon.returned (Some (errors_New "You must choose at least one stream"))
      [daemon.close_Messages] None.
Proof.
  exact (proj1 (C4_validation_error_closes_channel sample_daemon "c1"
                  (sample_config false false "all" (Some 7%nat)) 7%nat
                  (errors_New "You must choose at least one stream") eq_refl eq_refl)).
Defined.

Lemma body_Tail_only (d : daemon.Daemon) (name : string)
    (config : backend.ContainerLogsConfig) (tail : string) :
  daemon.body d name config =
  match daemon.body d name (daemon.set_Tail tail config) with
  | Ok w => Ok (worker_with_Tail
                  (match strconv.Atoi (backend.Tail config) with
                   | Ok n => n
                   | Fail _ => -1
                   end) w)
  | Fail e => Fail e
  end.
Proof.
  unfold daemon.body. cbn [daemon.set_Tail backend.Messages backend.ShowStdout
    backend.ShowStderr backend.Follow backend.Tail backend.Since].
  destruct (backend.Messages config); [| reflexivity].
  destruct (negb _); [reflexivity |].
  destruct (daemon.GetContainer d name) as [c |]; cbn [bind]; [| reflexivity].
  destruct (_ || _); [reflexivity |].
  destruct (String.eqb _ "none"); [reflexivity |].
  destruct (daemon.getLogger c) as [cLog |]; cbn [bind]; [| reflexivity].
  destruct (negb _); [reflexivity |].
  destruct (if String.eqb (backend.Since config) "" then _ else _); reflexivity.
Qed.

(** C8.  A tail value [strconv.Atoi] cannot parse never makes
    [ContainerLogs] fail: whatever other tail value the same request is
    given, parsable or not, [ContainerLogs] returns the same error or
    starts the same goroutine, the one difference being that the
    [ReadConfig] handed to the log source has [Tail = -1]; so an error it
    returns is one the request gets with every tail value.  In particular
    the request is served exactly as with tail "all". *)
Theorem C8_unparsable_tail_is_all (d : daemon.Daemon) (name : string)
    (config : backend.ContainerLogsConfig) :
  is_Ok (strconv.Atoi (backend.Tail config)) = false ->
  daemon.ContainerLogs d name config
  = daemon.ContainerLogs d name (daemon.set_Tail "all" config)
  /\ (forall w, daemon.body d name config = Ok w ->
                logger.Tail (daemon.w_readConfig w) = -1)
  /\ (forall tail,
        daemon.ContainerLogs d name config
        = outcome_with_Tail (-1) (daemon.ContainerLogs d name (daemon.set_Tail tail config)))
  /\ (forall tail e acts started,
        daemon.ContainerLogs d name config = daemon.returned (Some e) acts started ->
        daemon.ContainerLogs d name (daemon.set_Tail tail config)
        = daemon.returned (Some e) acts started).
Proof.
  intros Htail.
  assert (forall tail,
            daemon.body d name config =
            match daemon.body d name (daemon.set_Tail tail config) with
            | Ok w => Ok (worker_with_Tail (-1) w)
            | Fail e => Fail e
            end) as Hbody.
  { intros tail. rewrite (body_Tail_only d name config tail).
    destruct (strconv.Atoi (backend.Tail config)); [discriminate | reflexivity]. }
  assert (forall tail,
            daemon.ContainerLogs d name config
            = outcome_with_Tail (-1)
                (daemon.ContainerLogs d name (daemon.set_Tail tail config))) as Hout.
  { intros tail. unfold daemon.ContainerLogs. rewrite (Hbody tail).
    cbn [daemon.set_Tail backend.Messages].
    destruct (daemon.body d name (daemon.set_Tail tail config)) as [w | e]; [reflexivity |].
    destruct (backend.Messages config); reflexivity. }
  split; [| split; [| split]].
  - unfold daemon.ContainerLogs. cbn [daemon.set_Tail backend.Messages].
    rewrite (Hbody "all"), (body_Tail_only d name (daemon.set_Tail "all" config) "all").
    assert (daemon.set_Tail "all" (daemon.set_Tail "all" config)
            = daemon.set_Tail "all" config) as -> by reflexivity.
    destruct (daemon.body d name (daemon.set_Tail "all" config)) as [[ch rc cLog c] | e];
      reflexivity.
  - intros w Hw. rewrite (Hbody "all") in Hw.
    destruct (daemon.body d name (daemon.set_Tail "all" config)); [| discriminate].
    injection Hw as <-. reflexivity.
  - exact Hout.
  - intros tail e acts started Hret. rewrite (Hout tail) in Hret.
    unfold daemon.ContainerLogs in *.
    destruct (daemon.body d name (daemon.set_Tail tail config)) as [w | e'].
    + discriminate.
    + destruct (backend.Messages (daemon.set_Tail tail config)); [exact Hret | discriminate].
Qed.

(** C8 on the tail value ["not-a-number"]: the request is served, with
    [Tail = -1], as it is with the tail ["10"] but for that field. *)
Lemma C8_unparsable_tail_witness :
  daemon.ContainerLogs sample_daemon "c1" (sample_config true true "not-a-number" (Some 7%nat))
  = daemon.returned None []
      (Some {| daemon.w_Messages := 7%nat;
               daemon.w_readConfig :=
                 {| logger.Since := time.zero; logger.Tail := -1; logger.Follow := true |};
               daemon.w_cLog := sample_logger;
               daemon.w_container := sample_container |}).
Proof.
  exact (proj1 (proj2 (proj2 (C8_unparsable_tail_is_all sample_daemon "c1"
                                (sample_config true true "not-a-number" (Some 7%nat))
                                eq_refl))) "10").
Defined.

(** C9 (the code departs from the claim).  On a request whose [Messages]
    channel is nil the guard makes the body return its error, and the
    deferred cleanup then closes the nil channel: the call ends in the
    panic "close of nil channel" instead of returning the error. *)
Theorem C9_nil_channel_panics (d : daemon.Daemon) (name : string)
    (config : backend.ContainerLogsConfig) :
  daemon.body d name (daemon.set_Messages None config)
  = Fail (errors_New "can't send messages on a nil channel, fix your code")
  /\ daemon.ContainerLogs d name (daemon.set_Messages None config)
     = daemon.panicked "close of nil channel".
Proof. split; reflexivity. Qed.

(** ** The pump and the writer together *)

(** A log source that yields one stdout message and then an error: the
    goroutine forwards the message, sends the terminal message and closes
    the channel; the writer, reading what was sent, writes one data frame,
    one system-error frame, and returns. *)
Example pump_then_writer :
  let acts :=
    daemon.run_worker
      {| daemon.w_Messages := 7%nat;
         daemon.w_readConfig :=
           {| logger.Since := time.zero; logger.Tail := -1; logger.Follow := false |};
         daemon.w_cLog := sample_logger;
         daemon.w_container := sample_container |}
      [daemon.logs_Msg (Some (sample_message "stdout" "hello")) daemon.inner_sent;
       daemon.logs_Err (foreign_error "read failed") true] in
  acts = [daemon.send (sample_message "stdout" "hello");
          daemon.send (daemon.error_message (foreign_error "read failed"));
          daemon.close_Messages; daemon.logs_Close]
  /\ httputils.WriteLogStream (sample_config true true "all" (Some 7%nat)) true
       (received (daemon.sent acts) ++ [httputils.recv None])%list
     = ([httputils.Flush;
         httputils.Write (httputils.StdWriter stdcopy.Stdout)
           "2006-01-02T15:04:05.000000000Z07:00 k=v hello";
         httputils.Write (httputils.StdWriter stdcopy.Systemerr)
           ("Error grabbing logs: read failed" ++ String "010" "");
         httputils.Close],
        [httputils.recv None]).
Proof. vm_compute. split; reflexivity. Qed.

(** * Part IV: further properties of the code *)

(** ** WriteLogStream *)

(** X1.  When the writer receives normal messages and then finds the
    context done or the channel closed, it has flushed first, written the
    messages whose stream is requested -- once each, in the order they
    arrived, each on the lane of its source -- skipped the others, closed
    the sink last, and left what was queued behind unread. *)
Theorem X1_writer_writes_requested_in_order (R : GoRuntime)
    (config : backend.ContainerLogsConfig) (mux cancelled : bool)
    (ms : list backend.LogMessage) (queued : list httputils.event) :
  Forall (fun m => backend.Err m = None) ms ->
  httputils.WriteLogStream config mux
    (received ms ++ (if cancelled then httputils.ctx_Done else httputils.recv None) :: queued)%list
  = ((httputils.Flush ::
      map (fun m => httputils.Write (lane_of (httputils.make_lanes mux) m)
                      (httputils.logLine_of config m))
          (List.filter (requested config) ms)
      ++ [httputils.Close])%list,
     queued).
Proof.
  intros Hms. unfold httputils.WriteLogStream.
  rewrite (loop_normal config _ ms _ Hms), writes_of_messages.
  destruct cancelled; cbn [httputils.loop]; rewrite app_nil_r; reflexivity.
Qed.

(** X1 on a run: stdout, stderr, stdout with only stdout requested, then
    the channel is closed. *)
Lemma X1_writer_order_witness :
  @httputils.WriteLogStream reference_runtime (sample_config true false "all" (Some 7%nat)) true
    [httputils.recv (Some (sample_message "stdout" "one"));
     httputils.recv (Some (sample_message "stderr" "two"));
     httputils.recv (Some (sample_message "stdout" "three"));
     httputils.recv None;
     httputils.recv (Some (sample_message "stdout" "late"))]
  = ([httputils.Flush;
      httputils.Write (httputils.StdWriter stdcopy.Stdout)
        "2006-01-02T15:04:05.000000000Z07:00 k=v one";
      httputils.Write (httputils.StdWriter stdcopy.Stdout)
        "2006-01-02T15:04:05.000000000Z07:00 k=v three";
      httputils.Close],
     [httputils.recv (Some (sample_message "stdout" "late"))]).
Proof.
  exact (X1_writer_writes_requested_in_order reference_runtime
           (sample_config true false "all" (Some 7%nat)) true false
           [sample_message "stdout" "one"; sample_message "stderr" "two";
            sample_message "stdout" "three"]
           [httputils.recv (Some (sample_message "stdout" "late"))]
           ltac:(repeat constructor)).
Defined.

(** X2.  Whatever events arrive, [WriteLogStream] calls [Flush] first,
    then only [Write]s, at most one per event it consumed, and [Close] at
    most once, as its last call; the events it did not consume are the
    tail of the input, untouched. *)
Theorem X2_writer_flush_first_close_last (R : GoRuntime)
    (config : backend.ContainerLogsConfig) (mux : bool) (evs : list httputils.event) :
  exists writes consumed,
    evs = (consumed ++ (httputils.WriteLogStream config mux evs).2)%list
    /\ Forall is_Write writes
    /\ (List.length writes <= List.length consumed)%nat
    /\ ((httputils.WriteLogStream config mux evs).1 = httputils.Flush :: writes
        \/ (httputils.WriteLogStream config mux evs).1
           = (httputils.Flush :: writes ++ [httputils.Close])%list).
Proof.
  unfold httputils.WriteLogStream.
  destruct (loop_shape config (httputils.make_lanes mux) evs) as (consumed & Hevs & Hw & Hlen).
  destruct (httputils.loop config (httputils.make_lanes mux) evs) as [[calls ret] unread].
  cbn [fst snd] in *. exists calls, consumed.
  repeat split; try assumption.
  destruct ret; [right; reflexivity | left; rewrite app_nil_r; reflexivity].
Qed.

(** ** The goroutine of ContainerLogs *)

Lemma pump_only_sends evs :
  (daemon.pump evs).1 = map daemon.send (daemon.sent (daemon.pump evs).1).
Proof.
  induction evs as [| ev evs IH]; [reflexivity |].
  destruct ev as [e [] | | [m |] []]; try reflexivity.
  cbn [daemon.pump]. destruct (daemon.pump evs) as [acts ret].
  cbn [fst] in *.
  change (daemon.sent (daemon.send (daemon.AsLogMessage m) :: acts))
    with (m :: daemon.sent acts).
  cbn [map]. f_equal. exact IH.
Qed.

Lemma pump_stops ms ev rest :
  stops ev = true ->
  daemon.pump (delivered ms ++ ev :: rest)%list = (map daemon.send ms, true).
Proof.
  intros Hev. rewrite pump_delivered.
  destruct ev as [e b | | [m |] []]; try discriminate; cbn [daemon.pump];
    rewrite app_nil_r; reflexivity.
Qed.

Lemma pump_sent_prefix evs :
  exists ms tail,
    daemon.sent (daemon.pump evs).1 = (ms ++ tail)%list
    /\ ms `prefix_of` data_messages evs
    /\ (tail = [] \/ exists e, tail = [daemon.error_message e] /\ daemon.logs_Err e true ∈ evs).
Proof.
  induction evs as [| ev evs IH].
  - exists [], []. repeat split; [apply prefix_nil | left; reflexivity].
  - destruct ev as [e [] | | [m |] []].
    + exists [], [daemon.error_message e]. repeat split; [apply prefix_nil |].
      right. exists e. split; [reflexivity | left].
    + exists [], []. repeat split; [apply prefix_nil | left; reflexivity].
    + exists [], []. repeat split; [apply prefix_nil | left; reflexivity].
    + exists [], []. repeat split; [apply prefix_nil | left; reflexivity].
    + destruct IH as (ms & tail & Hsent & Hpre & Htail).
      cbn [daemon.pump]. destruct (daemon.pump evs) as [acts ret]. cbn [fst] in *.
      exists (m :: ms), tail. repeat split.
      * change (daemon.sent (daemon.send (daemon.AsLogMessage m) :: acts))
          with (m :: daemon.sent acts).
        rewrite Hsent. reflexivity.
      * change (data_messages (daemon.logs_Msg (Some m) daemon.inner_sent :: evs))
          with (m :: data_messages evs).
        apply prefix_cons, Hpre.
      * destruct Htail as [-> | (e & -> & Hin)]; [left; reflexivity |].
        right. exists e. split; [reflexivity | right; exact Hin].
    + exists [], []. repeat split; [apply prefix_nil | left; reflexivity].
    + exists [], []. repeat split; [apply prefix_nil | left; reflexivity].
Qed.

(** X3.  On every run the goroutine's actions are its sends followed, when
    and only when it returns, by the deferred cleanup: [config.Messages]
    closed once, right after the last send, then the log watcher closed
    once, then the logger closed once unless it is the container's cached
    driver.  While the goroutine waits nothing is closed. *)
Theorem X3_pump_closes_once_after_last_send (w : daemon.worker) (evs : list daemon.event) :
  daemon.run_worker w evs =
  (map daemon.send (daemon.sent (daemon.run_worker w evs)) ++
   (if returns evs
    then daemon.close_Messages :: daemon.logs_Close ::
         (if decide (Some (daemon.w_cLog w) = container.LogDriver (daemon.w_container w))
          then [] else [daemon.cLog_Close])
    else []))%list.
Proof.
  unfold daemon.run_worker, returns.
  pose proof (pump_only_sends evs) as Hsends.
  destruct (daemon.pump evs) as [acts ret]. cbn [fst snd] in *.
  rewrite sent_app. destruct ret.
  - rewrite sent_deferred, app_nil_r, <- Hsends. reflexivity.
  - cbn [daemon.sent omap]. rewrite !app_nil_r, <- Hsends. reflexivity.
Qed.

(** X4.  What the goroutine sends on [config.Messages] is an initial part
    of what the log source yielded on its data channel, in the same order
    and unchanged, followed by at most one terminal message, which carries
    an error received from the source's error channel and nothing else. *)
Theorem X4_pump_sends_a_prefix_in_order (w : daemon.worker) (evs : list daemon.event) :
  exists ms tail,
    daemon.sent (daemon.run_worker w evs) = (ms ++ tail)%list
    /\ ms `prefix_of` data_messages evs
    /\ (tail = [] \/ exists e, tail = [daemon.error_message e] /\ daemon.logs_Err e true ∈ evs).
Proof.
  destruct (pump_sent_prefix evs) as (ms & tail & Hsent & Hpre & Htail).
  exists ms, tail. split; [| split; assumption].
  unfold daemon.run_worker. destruct (daemon.pump evs) as [acts ret]. cbn [fst] in *.
  rewrite sent_app, Hsent. destruct ret; [rewrite sent_deferred |]; apply app_nil_r.
Qed.

(** X5.  When, after forwarding some messages, the goroutine finds the
    context done or the data channel closed, it sends nothing more -- a
    message it had in hand when the context was cancelled is dropped -- runs
    its cleanup and ignores whatever the source yields later. *)
Theorem X5_pump_stops_on_cancel_or_close (w : daemon.worker)
    (ms : list backend.LogMessage) (ev : daemon.event) (later : list daemon.event) :
  stops ev = true ->
  daemon.run_worker w (delivered ms ++ ev :: later)%list
  = (map daemon.send ms ++ daemon.deferred w)%list.
Proof.
  intros Hev. unfold daemon.run_worker. rewrite (pump_stops ms ev later Hev). reflexivity.
Qed.

(** X5 on a run: one message forwarded, the next one in hand when the
    context is cancelled. *)
Lemma X5_pump_cancel_witness :
  daemon.run_worker
    {| daemon.w_Messages := 7%nat;
       daemon.w_readConfig :=
         {| logger.Since := time.zero; logger.Tail := -1; logger.Follow := true |};
       daemon.w_cLog := sample_logger;
       daemon.w_container := sample_container |}
    [daemon.logs_Msg (Some (sample_message "stdout" "one")) daemon.inner_sent;
     daemon.logs_Msg (Some (sample_message "stdout" "two")) daemon.inner_ctx_Done;
     daemon.logs_Msg (Some (sample_message "stdout" "three")) daemon.inner_sent]
  = [daemon.send (sample_message "stdout" "one"); daemon.close_Messages; daemon.logs_Close].
Proof.
  exact (X5_pump_stops_on_cancel_or_close _ [sample_message "stdout" "one"]
           (daemon.logs_Msg (Some (sample_message "stdout" "two")) daemon.inner_ctx_Done)
           [daemon.logs_Msg (Some (sample_message "stdout" "three")) daemon.inner_sent]
           eq_refl).
Defined.

(** X6.  When the log source reports an error after some messages were
    forwarded, the goroutine sends one message that carries only that error
    and then cleans up; the send is a plain channel send, so if nobody ever
    receives it the goroutine stays there: nothing is closed, and a
    cancelled context does not help. *)
Theorem X6_pump_reports_source_error (w : daemon.worker)
    (ms : list backend.LogMessage) (e : error) (received_ : bool)
    (later : list daemon.event) :
  daemon.run_worker w (delivered ms ++ daemon.logs_Err e received_ :: later)%list
  = (map daemon.send ms ++
     (if received_
      then daemon.send {| backend.Line := ""; backend.Source := "";
                          backend.Timestamp := time.zero; backend.Attrs := ∅;
                          backend.Err := Some e |} :: daemon.deferred w
      else []))%list.
Proof.
  unfold daemon.run_worker. rewrite pump_delivered. cbn [daemon.pump].
  destruct received_; [| rewrite !app_nil_r; reflexivity].
  rewrite <- app_assoc. reflexivity.
Qed.

(** ** ContainerLogs and getLogger *)

Lemma ContainerLogs_started d name config acts w :
  daemon.ContainerLogs d name config = daemon.returned None acts (Some w) ->
  daemon.body d name config = Ok w /\ acts = [].
Proof.
  unfold daemon.ContainerLogs.
  destruct (daemon.body d name config) as [w' | e].
  - intros [= <- <-]. split; reflexivity.
  - destruct (backend.Messages config); discriminate.
Qed.

(** What holds whenever the body of [ContainerLogs] gets as far as starting
    the goroutine. *)
Lemma body_Ok_inv d name config w :
  daemon.body d name config = Ok w ->
  let c := daemon.w_container w in
  let rc := daemon.w_readConfig w in
  backend.Messages config = Some (daemon.w_Messages w)
  /\ backend.ShowStdout config || backend.ShowStderr config = true
  /\ daemon.GetContainer d name = Ok c
  /\ container.RemovalInProgress c = false
  /\ container.Dead c = false
  /\ container.LogConfig_Type c <> "none"
  /\ daemon.getLogger c = Ok (daemon.w_cLog w)
  /\ logger.is_LogReader (daemon.w_cLog w) = true
  /\ logger.Follow rc = backend.Follow config && container.IsRunning c
  /\ logger.Tail rc = match strconv.Atoi (backend.Tail config) with
                      | Ok n => n
                      | Fail _ => -1
                      end
  /\ (if String.eqb (backend.Since config) ""
      then logger.Since rc = time.zero
      else exists sec nsec,
             daemon.ParseTimestamps d (backend.Since config) 0 = Ok (sec, nsec)
             /\ logger.Since rc = time.Unix sec nsec).
Proof.
  unfold daemon.body.
  destruct (backend.Messages config) as [ch |]; [| discriminate].
  destruct (backend.ShowStdout config || backend.ShowStderr config) eqn:Hshow;
    cbn [negb]; [| discriminate].
  destruct (daemon.GetContainer d name) as [c |] eqn:Hc; cbn [bind]; [| discriminate].
  destruct (container.RemovalInProgress c) eqn:Hrm; cbn [orb]; [discriminate |].
  destruct (container.Dead c) eqn:Hdead; [discriminate |].
  destruct (String.eqb_spec (container.LogConfig_Type c) "none") as [| Hnone]; [discriminate |].
  destruct (daemon.getLogger c) as [cLog |] eqn:Hlog; cbn [bind]; [| discriminate].
  destruct (logger.is_LogReader cLog) eqn:Hreader; cbn [negb]; [| discriminate].
  destruct (String.eqb (backend.Since config) "") eqn:Hsince.
  - cbn [bind]. intros [= <-]. cbn. repeat split; try assumption.
  - destruct (daemon.ParseTimestamps d (backend.Since config) 0) as [[sec nsec] |] eqn:Hts;
      cbn [bind]; [| discriminate].
    intros [= <-]. cbn. repeat split; try assumption.
    exists sec, nsec. split; reflexivity.
Qed.

(** X7.  [ContainerLogs] returns nil, having started its goroutine, only
    for a request with a channel and at least one stream, on a container
    that exists, is neither dead nor being removed, does not log to "none",
    and whose logger could be had and can be read from; until it has
    returned nothing is done to the channel. *)
Theorem X7_ContainerLogs_streams_only_when_valid (d : daemon.Daemon) (name : string)
    (config : backend.ContainerLogsConfig) (acts : list daemon.action) (w : daemon.worker) :
  daemon.ContainerLogs d name config = daemon.returned None acts (Some w) ->
  acts = []
  /\ backend.Messages config = Some (daemon.w_Messages w)
  /\ backend.ShowStdout config || backend.ShowStderr config = true
  /\ daemon.GetContainer d name = Ok (daemon.w_container w)
  /\ container.RemovalInProgress (daemon.w_container w) = false
  /\ container.Dead (daemon.w_container w) = false
  /\ container.LogConfig_Type (daemon.w_container w) <> "none"
  /\ daemon.getLogger (daemon.w_container w) = Ok (daemon.w_cLog w)
  /\ logger.is_LogReader (daemon.w_cLog w) = true.
Proof.
  intros Hrun. apply ContainerLogs_started in Hrun as [Hbody ->].
  pose proof (body_Ok_inv d name config w Hbody) as Hinv. cbn zeta in Hinv.
  split; [reflexivity |]. tauto.
Qed.

(** X7 on the sample request. *)
Lemma X7_ContainerLogs_valid_witness :
  daemon.GetContainer sample_daemon "c1" = Ok sample_container
  /\ logger.is_LogReader sample_logger = true.
Proof.
  pose proof (X7_ContainerLogs_streams_only_when_valid sample_daemon "c1"
                (sample_config true false "10" (Some 7%nat)) [] _ eq_refl) as Hx.
  cbn [daemon.w_container daemon.w_cLog] in Hx.
  split; [exact (proj1 (proj2 (proj2 (proj2 Hx)))) | exact (proj2 (proj2 (proj2 (proj2 (proj2 (proj2 (proj2 (proj2 Hx))))))))].
Defined.

(** X8.  The [ReadConfig] the log source is read with: it follows only if
    the request asks to and the container is running; its tail is the
    number the request's tail parses to -- zero and negative numbers
    included -- and [-1] when it does not parse; its since is the zero time
    for an empty value and otherwise the time the timestamp parser gave. *)
Theorem X8_ReadConfig_of_request (d : daemon.Daemon) (name : string)
    (config : backend.ContainerLogsConfig) (acts : list daemon.action) (w : daemon.worker) :
  daemon.ContainerLogs d name config = daemon.returned None acts (Some w) ->
  logger.Follow (daemon.w_readConfig w)
  = backend.Follow config && container.IsRunning (daemon.w_container w)
  /\ logger.Tail (daemon.w_readConfig w)
     = match strconv.Atoi (backend.Tail config) with
       | Ok n => n
       | Fail _ => -1
       end
  /\ (if String.eqb (backend.Since config) ""
      then logger.Since (daemon.w_readConfig w) = time.zero
      else exists sec nsec,
             daemon.ParseTimestamps d (backend.Since config) 0 = Ok (sec, nsec)
             /\ logger.Since (daemon.w_readConfig w) = time.Unix sec nsec).
Proof.
  intros Hrun. apply ContainerLogs_started in Hrun as [Hbody _].
  pose proof (body_Ok_inv d name config w Hbody) as Hinv. cbn zeta in Hinv. tauto.
Qed.

(** X8 on a request with tail ["-5"]: the negative count is passed on. *)
Lemma X8_ReadConfig_witness :
  logger.Tail
    {| logger.Since := time.zero; logger.Tail := -5; logger.Follow := true |}
  = -5.
Proof.
  exact (proj1 (proj2 (X8_ReadConfig_of_request sample_daemon "c1"
                         (sample_config true false "-5" (Some 7%nat)) [] _ eq_refl))).
Defined.

(** X9.  Who closes the logger.  When the container is running and has a
    cached log driver, the goroutine reads from that driver and its cleanup
    leaves it open.  Otherwise the logger is the one [StartLogger] made,
    and the cleanup closes it, once and last, unless it is the very logger
    cached in the container. *)
Theorem X9_logger_is_closed_only_if_started_here (d : daemon.Daemon) (name : string)
    (config : backend.ContainerLogsConfig) (acts : list daemon.action) (w : daemon.worker) :
  daemon.ContainerLogs d name config = daemon.returned None acts (Some w) ->
  let c := daemon.w_container w in
  if container.IsRunning c && bool_decide (container.LogDriver c <> None)
  then container.LogDriver c = Some (daemon.w_cLog w)
       /\ daemon.deferred w = [daemon.close_Messages; daemon.logs_Close]
  else container.StartLogger c = Ok (daemon.w_cLog w)
       /\ daemon.deferred w
          = daemon.close_Messages :: daemon.logs_Close ::
            (if decide (container.LogDriver c = Some (daemon.w_cLog w))
             then [] else [daemon.cLog_Close]).
Proof.
  intros Hrun. apply ContainerLogs_started in Hrun as [Hbody _].
  pose proof (body_Ok_inv d name config w Hbody) as Hinv. cbn zeta in *.
  destruct Hinv as (_ & _ & _ & _ & _ & _ & Hlog & _).
  unfold daemon.getLogger in Hlog. unfold daemon.deferred.
  destruct (container.LogDriver (daemon.w_container w)) as [drv |] eqn:Hdrv.
  - rewrite bool_decide_eq_true_2 by discriminate. rewrite andb_true_r.
    destruct (container.IsRunning (daemon.w_container w)).
    + injection Hlog as ->. split; [reflexivity |].
      rewrite decide_True by reflexivity. reflexivity.
    + split; [exact Hlog |].
      destruct (decide (Some (daemon.w_cLog w) = Some drv)) as [E | N];
        destruct (decide (Some drv = Some (daemon.w_cLog w))) as [E' | N'];
        try reflexivity; congruence.
  - rewrite bool_decide_eq_false_2 by (intros Hn; apply Hn; reflexivity).
    rewrite andb_false_r. split; [exact Hlog |].
    rewrite decide_False by discriminate. rewrite decide_False by discriminate.
    reflexivity.
Qed.

(** X9 on the sample container, which is running with a cached driver. *)
Lemma X9_logger_witness :
  container.LogDriver sample_container = Some sample_logger
  /\ daemon.deferred
       {| daemon.w_Messages := 7%nat;
          daemon.w_readConfig :=
            {| logger.Since := time.zero; logger.Tail := 10; logger.Follow := true |};
          daemon.w_cLog := sample_logger;
          daemon.w_container := sample_container |}
     = [daemon.close_Messages; daemon.logs_Close].
Proof.
  exact (X9_logger_is_closed_only_if_started_here sample_daemon "c1"
           (sample_config true false "10" (Some 7%nat)) [] _ eq_refl).
Defined.

(** ** ParseLogDetails *)

Lemma insert_all_snoc (acc : gmap string string) kvs kv :
  insert_all acc (kvs ++ [kv]) = <[kv.1 := kv.2]> (insert_all acc kvs).
Proof. unfold insert_all. rewrite foldl_app. reflexivity. Qed.

Lemma insert_all_nonempty (acc : gmap string string) kvs :
  kvs <> [] -> insert_all acc kvs <> ∅.
Proof.
  destruct kvs as [| kv kvs _] using rev_ind; [congruence |].
  intros _. rewrite insert_all_snoc. apply insert_non_empty.
Qed.

Lemma insert_all_size kvs : forall (acc : gmap string string),
  (size (insert_all acc kvs) <= size acc + List.length kvs)%nat.
Proof.
  induction kvs as [| [k v] kvs IH]; intros acc; [simpl; lia |].
  change (insert_all acc ((k, v) :: kvs)) with (insert_all (<[k := v]> acc) kvs).
  specialize (IH (<[k := v]> acc)). rewrite map_size_insert in IH.
  destruct (acc !! k); simpl in *; lia.
Qed.

Lemma segment_decodes_has_eq seg kv : segment_decodes seg kv -> has_byte "=" seg = true.
Proof.
  intros (rk & rv & -> & _). rewrite has_byte_app. simpl. apply orb_true_r.
Qed.

(** X10.  [ParseLogDetails] never returns an empty mapping, and never part
    of one: when it succeeds the input is not empty, every comma-separated
    segment of it contains an [=] (so no leading, trailing or doubled
    comma), the mapping has at least one key and at most as many keys as
    there are segments. *)
Theorem X10_ParseLogDetails_success_is_nonempty (s : string) (m : gmap string string) :
  client.ParseLogDetails s = Ok m ->
  s <> ""
  /\ Forall (fun seg => has_byte "=" seg = true) (strings.Split s ",")
  /\ m <> ∅
  /\ (1 <= size m <= List.length (strings.Split s ","))%nat.
Proof.
  intros Hok. unfold client.ParseLogDetails in Hok.
  pose proof (parse_pairs_spec (strings.Split s ",") ∅) as Hspec.
  rewrite Hok in Hspec. destruct Hspec as (kvs & Hall & ->).
  assert (kvs <> []) as Hne.
  { intros ->. apply Forall2_nil_inv_r in Hall. exact (Split_nonempty s "," Hall). }
  assert (insert_all ∅ kvs <> ∅) as Hm by (apply insert_all_nonempty, Hne).
  repeat split.
  - intros ->. vm_compute in Hok. discriminate.
  - clear Hok Hne Hm. induction Hall as [| seg kv segs kvs Hd _ IH]; constructor.
    + eapply segment_decodes_has_eq, Hd.
    + exact IH.
  - exact Hm.
  - destruct (decide (size (insert_all ∅ kvs) = 0%nat)) as [Hz | Hz]; [| lia].
    apply map_size_empty_iff in Hz. contradiction.
  - rewrite (Forall2_length _ _ _ Hall).
    pose proof (insert_all_size kvs ∅) as Hsz. rewrite map_size_empty in Hsz. lia.
Qed.

(** X10 on ["a=1,a=2"]: two segments, one key. *)
Lemma X10_ParseLogDetails_success_witness :
  ("a=1,a=2" : string) <> ""
  /\ Forall (fun seg => has_byte "=" seg = true) (strings.Split "a=1,a=2" ",")
  /\ ({["a" := "2"]} : gmap string string) <> ∅
  /\ (1 <= size ({["a" := "2"]} : gmap string string)
        <= List.length (strings.Split "a=1,a=2" ","))%nat.
Proof.
  apply (X10_ParseLogDetails_success_is_nonempty "a=1,a=2" {["a" := "2"]}).
  vm_compute. reflexivity.
Defined.

(** Every byte, escaped and unescaped again. *)
Lemma escaped_byte (x : ascii) :
  let h1 := url.upperhex (N.shiftr (N_of_ascii x) 4) in
  let h2 := url.upperhex (N.land (N_of_ascii x) 15) in
  url.ishex h1 && url.ishex h2 = true
  /\ ascii_of_N (N.lor (N.shiftl (url.unhex h1) 4) (url.unhex h2)) = x
  /\ url.shouldEscape h1 = false /\ url.shouldEscape h2 = false.
Proof.
  destruct x as [b0 b1 b2 b3 b4 b5 b6 b7].
  destruct b0, b1, b2, b3, b4, b5, b6, b7; vm_compute; repeat split; reflexivity.
Qed.

Lemma shouldEscape_differs (x c : ascii) :
  url.shouldEscape x = false -> url.shouldEscape c = true -> Ascii.eqb x c = false.
Proof.
  intros Hx Hc. destruct (Ascii.eqb_spec x c) as [-> | ?]; [congruence | reflexivity].
Qed.

Lemma QueryEscape_has_byte (c : ascii) (s : string) :
  url.shouldEscape c = true -> c <> "%"%char -> c <> "+"%char ->
  has_byte c (url.QueryEscape s) = false.
Proof.
  intros Hc Hpct Hplus. induction s as [| x s IH]; [reflexivity |].
  cbn [url.QueryEscape].
  destruct (Ascii.eqb x " ").
  - cbn [has_byte]. rewrite IH, orb_false_r. apply Ascii.eqb_neq. congruence.
  - destruct (url.shouldEscape x) eqn:Hx.
    + destruct (escaped_byte x) as (_ & _ & H1 & H2). cbn zeta in H1, H2.
      cbn [has_byte]. rewrite IH, (shouldEscape_differs _ c H1 Hc),
        (shouldEscape_differs _ c H2 Hc), !orb_false_r.
      apply Ascii.eqb_neq. congruence.
    + cbn [has_byte]. rewrite IH, (shouldEscape_differs x c Hx Hc). reflexivity.
Qed.

Lemma QueryUnescape_QueryEscape (s : string) :
  url.QueryUnescape (url.QueryEscape s) = Ok s.
Proof.
  induction s as [| x s IH]; [reflexivity |].
  cbn [url.QueryEscape].
  destruct (Ascii.eqb_spec x " ") as [-> | Hsp].
  - cbn [url.QueryUnescape Ascii.eqb Bool.eqb]. rewrite IH. reflexivity.
  - destruct (url.shouldEscape x) eqn:Hx.
    + destruct (escaped_byte x) as (Hhex & Hbyte & _). cbn zeta in Hhex, Hbyte.
      cbn [url.QueryUnescape Ascii.eqb Bool.eqb]. rewrite Hhex, IH. cbn [bind].
      rewrite Hbyte. reflexivity.
    + cbn [url.QueryUnescape].
      rewrite (shouldEscape_differs x "%" Hx eq_refl), (shouldEscape_differs x "+" Hx eq_refl), IH.
      reflexivity.
Qed.

Lemma parse_pairs_escaped kvs : forall acc,
  client.parse_pairs (map escaped_pair kvs) acc = Ok (insert_all acc kvs).
Proof.
  induction kvs as [| [k v] kvs IH]; intros acc; [reflexivity |].
  cbn [map client.parse_pairs]. rewrite SplitN_2.
  unfold escaped_pair at 1. cbn [fst snd].
  change (url.QueryEscape k ++ "=" ++ url.QueryEscape v)
    with (url.QueryEscape k ++ String "=" (url.QueryEscape v)).
  rewrite cut_app by (apply QueryEscape_has_byte; [reflexivity | discriminate | discriminate]).
  rewrite !QueryUnescape_QueryEscape. cbn [bind]. rewrite IH. reflexivity.
Qed.

Lemma escaped_pair_no_comma kv : has_byte "," (escaped_pair kv) = false.
Proof.
  unfold escaped_pair. rewrite !has_byte_app.
  rewrite !QueryEscape_has_byte by (reflexivity || discriminate). reflexivity.
Qed.

(** X11.  [ParseLogDetails] undoes the documented format on every input:
    for any non-empty list of key-value pairs -- whatever bytes the keys
    and values contain, in any order, with repeated keys -- decoding the
    comma-joined [escaped(key)=escaped(value)] pairs yields the mapping
    obtained by storing the pairs one after the other; so when the pairs
    are the entries of a mapping, in any order, it yields that mapping. *)
Theorem X11_ParseLogDetails_inverts_escaped_pairs (kvs : list (string * string)) :
  kvs <> [] ->
  client.ParseLogDetails (strings.Join (map escaped_pair kvs) ",") = Ok (insert_all ∅ kvs)
  /\ (forall key, insert_all ∅ kvs !! key = last_value key kvs)
  /\ (forall m : gmap string string, map_to_list m ≡ₚ kvs -> insert_all ∅ kvs = m).
Proof.
  intros Hne. split; [| split].
  - unfold client.ParseLogDetails.
    change "," with (String "," "") at 1.
    rewrite Split_Join.
    + apply parse_pairs_escaped.
    + destruct kvs; [congruence | discriminate].
    + apply Forall_fmap, Forall_forall. intros kv _. apply escaped_pair_no_comma.
  - intros key. rewrite insert_all_lookup, lookup_empty.
    destruct (last_value key kvs); reflexivity.
  - intros m Hm. apply insert_all_entries, Hm.
Qed.

(** X11 on two pairs full of separators and escapes. *)
Lemma X11_ParseLogDetails_escaped_witness :
  client.ParseLogDetails "a%3Db=1%2C2,c+d=%25+%2B"
  = Ok (<["c d" := "% +"]> (<["a=b" := "1,2"]> ∅)).
Proof.
  exact (proj1 (X11_ParseLogDetails_inverts_escaped_pairs
                  [("a=b", "1,2"); ("c d", "% +")] ltac:(discriminate))).
Defined.

(** ** byKey and stringAttrs *)

Lemma key_plain s : has_byte "=" s = false -> byKey.key s = s.
Proof. intros Hs. unfold byKey.key. rewrite Split_plain by exact Hs. reflexivity. Qed.

Lemma key_before_eq a b : has_byte "=" a = false -> byKey.key (a ++ String "=" b) = a.
Proof. intros Ha. unfold byKey.key. rewrite Split_app by exact Ha. reflexivity. Qed.

(** X12.  [byKey.Less] is a strict weak ordering, which is what
    [sort.Sort] needs to leave the slice sorted: no element is less than
    itself, the relation is asymmetric and transitive, and so is being
    not-less. *)
Theorem X12_Less_is_a_strict_weak_ordering :
  (forall a, byKey.Less a a = false)
  /\ (forall a b, byKey.Less a b = true -> byKey.Less b a = false)
  /\ (forall a b c, byKey.Less a b = true -> byKey.Less b c = true -> byKey.Less a c = true)
  /\ (forall a b c, byKey.Less a b = false -> byKey.Less b c = false -> byKey.Less a c = false).
Proof.
  unfold byKey.Less. repeat split.
  - intros a. apply ltb_irrefl.
  - intros a b. apply ltb_asym.
  - intros a b c. apply ltb_trans.
  - intros a b c Hab Hbc.
    exact (key_le_trans c b a Hbc Hab).
Qed.

(** X13.  [byKey.Less] looks only at what precedes the first [=] of an
    element.  On two pairs [k=v] whose keys contain no [=] it is the byte
    order of the keys, whatever the values.  Once keys contain an [=], two
    pairs whose keys agree up to that [=] are not ordered either way, so
    the sort may leave them in either order. *)
Theorem X13_Less_compares_text_before_first_eq
    (k1 k2 v1 v2 rest1 rest2 : string) :
  has_byte "=" k1 = false ->
  has_byte "=" k2 = false ->
  byKey.Less (httputils.pair_string (k1, v1)) (httputils.pair_string (k2, v2))
  = String.ltb k1 k2
  /\ byKey.Less (httputils.pair_string (k1 ++ String "=" rest1, v1))
                (httputils.pair_string (k1 ++ String "=" rest2, v2)) = false.
Proof.
  intros H1 H2. unfold byKey.Less, httputils.pair_string. cbn [fst snd].
  change (k1 ++ "=" ++ v1) with (k1 ++ String "=" v1).
  change (k2 ++ "=" ++ v2) with (k2 ++ String "=" v2).
  rewrite !append_assoc.
  change (String "=" rest1 ++ "=" ++ v1) with (String "=" (rest1 ++ "=" ++ v1)).
  change (String "=" rest2 ++ "=" ++ v2) with (String "=" (rest2 ++ "=" ++ v2)).
  rewrite !key_before_eq by assumption.
  split; [reflexivity | apply ltb_irrefl].
Qed.

(** X13 on the keys ["b"] and ["a"], and on the keys ["a=x"] and ["a=y"]. *)
Lemma X13_Less_witness :
  byKey.Less "b=1" "a=2" = false
  /\ byKey.Less "b=x=1" "b=y=2" = false.
Proof.
  exact (X13_Less_compares_text_before_first_eq "b" "a" "1" "2" "x" "y" eq_refl eq_refl).
Defined.

(** X14.  [byKey.Swap] with both indices in range exchanges the two
    elements and nothing else: the length and the multiset of elements are
    kept, every other position is untouched, and swapping again restores
    the slice.  With an index out of range it panics. *)
Theorem X14_Swap_exchanges_two_elements (s : list string) (i j : nat) :
  if decide (i < byKey.Len s /\ j < byKey.Len s)%nat
  then exists s',
         byKey.Swap s i j = Some s'
         /\ byKey.Len s' = byKey.Len s
         /\ s' ≡ₚ s
         /\ s' !! i = s !! j
         /\ s' !! j = s !! i
         /\ (forall k, k <> i -> k <> j -> s' !! k = s !! k)
         /\ byKey.Swap s' i j = Some s
  else byKey.Swap s i j = None.
Proof.
  unfold byKey.Len, byKey.Swap.
  destruct (decide _) as [[Hi Hj] | Hout].
  - destruct (lookup_lt_is_Some_2 s i Hi) as [si Hsi].
    destruct (lookup_lt_is_Some_2 s j Hj) as [sj Hsj].
    rewrite Hsi, Hsj.
    assert (<[j := si]> (<[i := sj]> s) !! i = Some sj) as Hi'.
    { destruct (decide (i = j)) as [-> | Hne].
      - rewrite list_lookup_insert_eq by (rewrite length_insert; exact Hj). congruence.
      - rewrite list_lookup_insert_ne by congruence.
        apply list_lookup_insert_eq, Hi. }
    assert (<[j := si]> (<[i := sj]> s) !! j = Some si) as Hj'.
    { apply list_lookup_insert_eq. rewrite length_insert. exact Hj. }
    eexists. split; [reflexivity |]. repeat split.
    + rewrite !length_insert. reflexivity.
    + apply Permutation_insert_swap; assumption.
    + congruence.
    + congruence.
    + intros k Hki Hkj. rewrite !list_lookup_insert_ne by congruence. reflexivity.
    + rewrite Hi', Hj'. f_equal.
      apply list_eq. intros k.
      destruct (decide (k = j)) as [-> | Hkj].
      * rewrite list_lookup_insert_eq by (rewrite !length_insert; exact Hj). congruence.
      * rewrite list_lookup_insert_ne by congruence.
        destruct (decide (k = i)) as [-> | Hki].
        -- rewrite list_lookup_insert_eq by (rewrite !length_insert; exact Hi). congruence.
        -- rewrite !list_lookup_insert_ne by congruence. reflexivity.
  - destruct (s !! i) as [si |] eqn:Hsi; [| reflexivity].
    destruct (s !! j) as [sj |] eqn:Hsj; [| reflexivity].
    exfalso. apply Hout. split; eapply lookup_lt_Some; eassumption.
Qed.

Section encoder_determinism.
Context `{GoRuntime}.

Lemma stringAttrs_sorted_entries (a : gmap string string) :
  map_Forall (fun k _ => has_byte "=" k = false) a ->
  httputils.stringAttrs a =
  strings.Join (map httputils.pair_string (merge_sort raw_key_le (map_to_list a))) ",".
Proof. apply stringAttrs_sorted_by_key. Qed.

End encoder_determinism.

(** X15.  For a mapping none of whose keys contains an [=], the output of
    [stringAttrs] does not depend on the order in which Go ranges over the
    map nor on how [sort.Sort] breaks ties: it is the entries [key=value],
    raw, in ascending byte order of their keys, joined with commas. *)
Theorem X15_stringAttrs_is_sorted_and_deterministic (a : gmap string string) :
  map_Forall (fun k _ => has_byte "=" k = false) a ->
  exists es,
    map_to_list a ≡ₚ es
    /\ StronglySorted (fun p q => String.leb p.1 q.1 = true) es
    /\ forall R : GoRuntime,
         httputils.stringAttrs a = strings.Join (map httputils.pair_string es) ",".
Proof.
  intros Hkeys. exists (merge_sort raw_key_le (map_to_list a)). split; [| split].
  - symmetry. apply merge_sort_Permutation.
  - apply (StronglySorted_merge_sort raw_key_le).
  - intros R. apply stringAttrs_sorted_entries, Hkeys.
Qed.

(** X15 on a mapping with three keys. *)
Lemma X15_stringAttrs_sorted_witness :
  exists es,
    map_to_list (<["b" := "2"]> (<["c" := "3"]> ({["a" := "1"]} : gmap string string))) ≡ₚ es
    /\ StronglySorted (fun p q => String.leb p.1 q.1 = true) es
    /\ forall R : GoRuntime,
         httputils.stringAttrs (<["b" := "2"]> (<["c" := "3"]> {["a" := "1"]}))
         = strings.Join (map httputils.pair_string es) ",".
Proof.
  apply X15_stringAttrs_is_sorted_and_deterministic.
  intros k v Hkv.
  apply lookup_insert_Some in Hkv as [[<- _] | [_ Hkv]]; [reflexivity |].
  apply lookup_insert_Some in Hkv as [[<- _] | [_ Hkv]]; [reflexivity |].
  apply lookup_singleton_Some in Hkv as [<- _]. reflexivity.
Defined.

(** ** mergeAndVerifyLogConfig *)

Lemma merge_default_fold es : forall config : gmap string string,
  NoDup es.*1 ->
  foldl daemon.merge_default config es = config ∪ list_to_map es.
Proof.
  induction es as [| [k v] es IH]; intros config Hnd.
  - cbn. symmetry. apply (right_id_L ∅ (∪)).
  - cbn [fmap list_fmap fst] in Hnd. apply NoDup_cons in Hnd as [Hk Hnd].
    cbn [foldl]. rewrite IH by exact Hnd.
    apply map_eq. intros i. rewrite !lookup_union, list_to_map_cons.
    unfold daemon.merge_default. cbn [fst snd].
    destruct (decide (i = k)) as [-> | Hne].
    + rewrite lookup_insert_eq, (not_elem_of_list_to_map_1 es k Hk).
      destruct (config !! k) as [u |] eqn:Hu.
      * rewrite Hu. reflexivity.
      * rewrite lookup_insert_eq. reflexivity.
    + rewrite (lookup_insert_ne (list_to_map es)) by congruence.
      destruct (config !! k) as [u |] eqn:Hu; [reflexivity |].
      rewrite lookup_insert_ne by congruence. reflexivity.
Qed.

Lemma merge_defaults_union `{GoRuntime} (config : gmap string string)
    (dflt : containertypes.LogConfig) :
  foldl daemon.merge_default config
    (match containertypes.Config dflt with
     | Some defaults => map_range defaults
     | None => []
     end)
  = config ∪ options dflt.
Proof.
  unfold options. destruct (containertypes.Config dflt) as [defaults |].
  - rewrite merge_default_fold.
    + f_equal. symmetry. apply list_to_map_flip. symmetry. apply map_range_perm.
    + rewrite map_range_perm. apply NoDup_fst_map_to_list.
  - cbn. symmetry. apply (right_id_L ∅ (∪)).
Qed.

(** X16.  [mergeAndVerifyLogConfig] leaves the container's log config with
    a non-nil option map and with the daemon's default driver type when it
    had none.  When its driver type is then the daemon's default, the
    options become the container's own options completed by the daemon's
    defaults -- an option the container sets is never overridden, and the
    order in which the defaults are ranged over does not matter; when the
    driver differs, no default is added.  The error returned is the verdict
    of [ValidateLogOpts] on that driver type and those options. *)
Theorem X16_merge_completes_with_defaults (R : GoRuntime)
    (dflt : containertypes.LogConfig)
    (validate : string -> gmap string string -> option error)
    (cfg : containertypes.LogConfig) :
  let type :=
    if String.eqb (containertypes.Type_ cfg) ""
    then containertypes.Type_ dflt else containertypes.Type_ cfg in
  let merged :=
    if String.eqb type (containertypes.Type_ dflt)
    then options cfg ∪ options dflt else options cfg in
  daemon.mergeAndVerifyLogConfig dflt validate cfg
  = ({| containertypes.Type_ := type; containertypes.Config := Some merged |},
     validate type merged)
  /\ (forall k v, options cfg !! k = Some v -> merged !! k = Some v)
  /\ (forall k v, merged !! k = Some v ->
        options cfg !! k = Some v
        \/ (options cfg !! k = None /\ options dflt !! k = Some v
            /\ type = containertypes.Type_ dflt)).
Proof.
  cbn zeta. unfold daemon.mergeAndVerifyLogConfig. rewrite merge_defaults_union.
  fold (options cfg).
  split; [| split].
  - destruct (String.eqb _ (containertypes.Type_ dflt)); reflexivity.
  - intros k v Hk. destruct (String.eqb _ (containertypes.Type_ dflt)); [| exact Hk].
    apply lookup_union_Some_raw. left. exact Hk.
  - intros k v. destruct (String.eqb_spec
      (if String.eqb (containertypes.Type_ cfg) ""
       then containertypes.Type_ dflt else containertypes.Type_ cfg)
      (containertypes.Type_ dflt)) as [E | N].
    + intros Hk. apply lookup_union_Some_raw in Hk as [Hk | [Hn Hk]]; [left; exact Hk |].
      right. repeat split; assumption.
    + intros Hk. left. exact Hk.
Qed.

(** X17.  [mergeAndVerifyLogConfig] is idempotent: run on the log config
    it has produced, it leaves that config as it is and returns the same
    error. *)
Theorem X17_merge_is_idempotent (R : GoRuntime)
    (dflt : containertypes.LogConfig)
    (validate : string -> gmap string string -> option error)
    (cfg : containertypes.LogConfig) :
  daemon.mergeAndVerifyLogConfig dflt validate
    (daemon.mergeAndVerifyLogConfig dflt validate cfg).1
  = daemon.mergeAndVerifyLogConfig dflt validate cfg.
Proof.
  unfold daemon.mergeAndVerifyLogConfig at 2. rewrite merge_defaults_union.
  fold (options cfg). cbn [fst].
  unfold daemon.mergeAndVerifyLogConfig. rewrite !merge_defaults_union.
  cbn [containertypes.Type_ containertypes.Config]. fold (options cfg).
  set (type := if String.eqb (containertypes.Type_ cfg) ""
               then containertypes.Type_ dflt else containertypes.Type_ cfg).
  assert ((if String.eqb type "" then containertypes.Type_ dflt else type) = type) as ->.
  { destruct (String.eqb_spec type "") as [E | N]; [| reflexivity].
    subst type. destruct (String.eqb_spec (containertypes.Type_ cfg) "") as [E' | N'].
    - reflexivity.
    - congruence. }
  destruct (String.eqb type (containertypes.Type_ dflt)); [| reflexivity].
  assert (options cfg ∪ options dflt ∪ options dflt = options cfg ∪ options dflt) as ->.
  { rewrite <- (assoc_L (∪)). rewrite (idemp (∪) (options dflt)). reflexivity. }
  reflexivity.
Qed.

(** ** The volume conversions *)

(** [TestVolumeSpecToGRPC]: the expected value of the test. *)
Example VolumeSpecToGRPC_test :
  convert.VolumeSpecToGRPC test_spec =
  {| swarmapi.Spec_Annotations :=
       {| swarmapi.Annotations_Name := "volume1";
          swarmapi.Annotations_Labels := Some {["labeled" := "yeah"]} |};
     swarmapi.Group := "gronp";
     swarmapi.Spec_Driver :=
       Some {| swarmapi.Driver_Name := "plug1";
               swarmapi.Driver_Options := Some {["options" := "yeah"]} |};
     swarmapi.AccessMode :=
       Some {| swarmapi.Scope := swarmapi.VolumeScopeMultiNode;
               swarmapi.Sharing := swarmapi.VolumeSharingAll |};
     swarmapi.Secrets :=
       Some [ Some {| swarmapi.Key := "key1"; swarmapi.Secret := "secret1" |};
              Some {| swarmapi.Key := "key2"; swarmapi.Secret := "secret2" |} ];
     swarmapi.AccessibilityRequirements :=
       Some {| swarmapi.Requisite :=
                 Some [ Some {| swarmapi.Segments := Some {["top1" := "yup"]} |};
                        Some {| swarmapi.Segments := Some {["top2" := "def"]} |};
                        Some {| swarmapi.Segments := Some {["top3" := "nah"]} |} ];
               swarmapi.Preferred := None |};
     swarmapi.Spec_CapacityRange :=
       Some {| swarmapi.RequiredBytes := 1; swarmapi.LimitBytes := 0 |};
     swarmapi.Availability := swarmapi.VolumeAvailabilityActive |}.
Proof. reflexivity. Qed.

(** [TestTopologyFromGRPC], [TestCapacityRangeFromGRPC] and
    [TestVolumeAvailabilityFromGRPC]. *)
Example FromGRPC_tests :
  convert.volumeAvailabilityFromGRPC swarmapi.VolumeAvailabilityActive
  = types.VolumeAvailabilityActive
  /\ convert.volumeAvailabilityFromGRPC swarmapi.VolumeAvailabilityPause
     = types.VolumeAvailabilityPause
  /\ convert.volumeAvailabilityFromGRPC swarmapi.VolumeAvailabilityDrain
     = types.VolumeAvailabilityDrain
  /\ convert.topologyFromGRPC None = {| types.Segments := None |}
  /\ types.Segments
       (convert.topologyFromGRPC (Some {| swarmapi.Segments := Some {["foo" := "bar"]} |}))
     = Some {["foo" := "bar"]}
  /\ convert.capacityRangeFromGRPC None = None
  /\ convert.capacityRangeFromGRPC
       (Some {| swarmapi.RequiredBytes := 0; swarmapi.LimitBytes := 0 |})
     = Some {| types.RequiredBytes := 0; types.LimitBytes := 0 |}
  /\ convert.capacityRangeFromGRPC
       (Some {| swarmapi.RequiredBytes := 1024; swarmapi.LimitBytes := 2048 |})
     = Some {| types.RequiredBytes := 1024; types.LimitBytes := 2048 |}.
Proof. repeat split; reflexivity. Qed.

Lemma uint64_int64_uint64 (x : Z) :
  is_uint64 x -> uint64_of_int64 (int64_of_uint64 x) = x.
Proof.
  unfold is_uint64, uint64_of_int64, int64_of_uint64. intros Hx.
  destruct (Z.ltb_spec x (2 ^ 63)).
  - apply Z.mod_small. lia.
  - replace (x - 2 ^ 64) with (x + (-1) * 2 ^ 64) by lia.
    rewrite Z.mod_add by lia. apply Z.mod_small. lia.
Qed.

Lemma int64_of_uint64_range (x : Z) :
  is_uint64 x ->
  is_int64 (int64_of_uint64 x) /\ (int64_of_uint64 x < 0 <-> 2 ^ 63 <= x).
Proof.
  unfold is_uint64, is_int64, int64_of_uint64. intros Hx.
  destruct (Z.ltb_spec x (2 ^ 63)); lia.
Qed.

Lemma uint64_of_int64_range (x : Z) :
  is_int64 x ->
  is_uint64 (uint64_of_int64 x)
  /\ uint64_of_int64 x = (if x <? 0 then x + 2 ^ 64 else x)
  /\ int64_of_uint64 (uint64_of_int64 x) = x.
Proof.
  unfold is_uint64, is_int64, int64_of_uint64, uint64_of_int64. intros Hx.
  assert (x mod 2 ^ 64 = if x <? 0 then x + 2 ^ 64 else x) as ->.
  { destruct (Z.ltb_spec x 0).
    - replace x with ((x + 2 ^ 64) + (-1) * 2 ^ 64) at 1 by lia.
      rewrite Z.mod_add by lia. apply Z.mod_small. lia.
    - apply Z.mod_small. lia. }
  destruct (Z.ltb_spec x 0).
  - repeat split; try lia. destruct (Z.ltb_spec (x + 2 ^ 64) (2 ^ 63)); lia.
  - repeat split; try lia. destruct (Z.ltb_spec x (2 ^ 63)); lia.
Qed.

(** X18.  A capacity range survives [VolumeSpecToGRPC] followed by
    [capacityRangeFromGRPC] unchanged, for all unsigned 64-bit byte counts
    (and an absent range stays absent), although on the swarmkit side the
    counts from 2^63 up travel as negative [int64] values. *)
Theorem X18_capacity_range_round_trip (C : ConvertContext) (spec : types.VolumeSpec) :
  (forall cr, types.Spec_CapacityRange spec = Some cr ->
              is_uint64 (types.RequiredBytes cr) /\ is_uint64 (types.LimitBytes cr)) ->
  convert.capacityRangeFromGRPC (swarmapi.Spec_CapacityRange (convert.VolumeSpecToGRPC spec))
  = types.Spec_CapacityRange spec
  /\ (forall cr, types.Spec_CapacityRange spec = Some cr ->
        exists cr',
          swarmapi.Spec_CapacityRange (convert.VolumeSpecToGRPC spec) = Some cr'
          /\ is_int64 (swarmapi.RequiredBytes cr') /\ is_int64 (swarmapi.LimitBytes cr')
          /\ (swarmapi.RequiredBytes cr' < 0 <-> 2 ^ 63 <= types.RequiredBytes cr)
          /\ (swarmapi.LimitBytes cr' < 0 <-> 2 ^ 63 <= types.LimitBytes cr)).
Proof.
  intros Hrange. cbn [convert.VolumeSpecToGRPC swarmapi.Spec_CapacityRange].
  destruct (types.Spec_CapacityRange spec) as [[r l] |]; [| split; [reflexivity | discriminate]].
  destruct (Hrange _ eq_refl) as [Hr Hl]. cbn [types.RequiredBytes types.LimitBytes] in *.
  split.
  - cbn. rewrite !uint64_int64_uint64 by assumption. reflexivity.
  - intros cr [= <-]. eexists. split; [reflexivity |].
    cbn [swarmapi.RequiredBytes swarmapi.LimitBytes types.RequiredBytes types.LimitBytes].
    destruct (int64_of_uint64_range r Hr), (int64_of_uint64_range l Hl). auto.
Qed.

(** X18 on the spec of the test, with a limit above 2^63. *)
Lemma X18_capacity_witness :
  convert.capacityRangeFromGRPC
    (Some {| swarmapi.RequiredBytes := 1; swarmapi.LimitBytes := -1 |})
  = Some {| types.RequiredBytes := 1; types.LimitBytes := 2 ^ 64 - 1 |}.
Proof.
  refine (proj1 (X18_capacity_range_round_trip sample_context
                   {| types.Spec_Annotations := types.Spec_Annotations test_spec;
                      types.Group := "";
                      types.Driver := None;
                      types.AccessMode := None;
                      types.Secrets := None;
                      types.AccessibilityRequirements := None;
                      types.Spec_CapacityRange :=
                        Some {| types.RequiredBytes := 1; types.LimitBytes := 2 ^ 64 - 1 |};
                      types.Availability := types.VolumeAvailabilityActive |} _)).
  intros cr [= <-]. unfold is_uint64. cbn. lia.
Defined.

(** X19.  [capacityRangeFromGRPC] maps every [int64] byte count from
    swarmkit into the [uint64] range: a non-negative count is kept, a
    negative count [x] becomes [x + 2^64]; no value is lost, since
    converting back gives the original. *)
Theorem X19_capacityRangeFromGRPC_wraps_negative (C : ConvertContext) (r l : Z) :
  is_int64 r -> is_int64 l ->
  exists cr,
    convert.capacityRangeFromGRPC
      (Some {| swarmapi.RequiredBytes := r; swarmapi.LimitBytes := l |}) = Some cr
    /\ is_uint64 (types.RequiredBytes cr) /\ is_uint64 (types.LimitBytes cr)
    /\ types.RequiredBytes cr = (if r <? 0 then r + 2 ^ 64 else r)
    /\ types.LimitBytes cr = (if l <? 0 then l + 2 ^ 64 else l)
    /\ int64_of_uint64 (types.RequiredBytes cr) = r
    /\ int64_of_uint64 (types.LimitBytes cr) = l.
Proof.
  intros Hr Hl. eexists. split; [reflexivity |].
  cbn [types.RequiredBytes types.LimitBytes].
  destruct (uint64_of_int64_range r Hr) as (? & ? & ?).
  destruct (uint64_of_int64_range l Hl) as (? & ? & ?). auto 10.
Qed.

(** X19 on the counts [-1] and [5]. *)
Lemma X19_capacity_wrap_witness :
  exists cr,
    convert.capacityRangeFromGRPC
      (Some {| swarmapi.RequiredBytes := -1; swarmapi.LimitBytes := 5 |}) = Some cr
    /\ is_uint64 (types.RequiredBytes cr) /\ is_uint64 (types.LimitBytes cr)
    /\ types.RequiredBytes cr = (if -1 <? 0 then -1 + 2 ^ 64 else -1)
    /\ types.LimitBytes cr = (if 5 <? 0 then 5 + 2 ^ 64 else 5)
    /\ int64_of_uint64 (types.RequiredBytes cr) = -1
    /\ int64_of_uint64 (types.LimitBytes cr) = 5.
Proof.
  apply (X19_capacityRangeFromGRPC_wraps_negative sample_context (-1) 5);
    unfold is_int64; lia.
Defined.

Lemma foldl_go_append {A B : Type} (f : A -> B) (l : list A) (acc : list B) :
  foldl (fun s x => go_append s (f x)) (Some acc) l = Some (acc ++ map f l)%list.
Proof.
  revert acc. induction l as [| x l IH]; intros acc.
  - cbn. rewrite app_nil_r. reflexivity.
  - cbn [foldl map]. unfold go_append at 2. cbn [elems]. rewrite IH, <- app_assoc. reflexivity.
Qed.

Lemma foldl_go_append_nil {A B : Type} (f : A -> B) (s : slice A) :
  foldl (fun acc x => go_append acc (f x)) None (elems s)
  = match nil_if_empty s with
    | Some l => Some (map f l)
    | None => None
    end.
Proof.
  destruct s as [[| x l] |]; try reflexivity.
  cbn [elems foldl nil_if_empty]. unfold go_append at 2. cbn [elems app].
  rewrite foldl_go_append. reflexivity.
Qed.

Lemma for_each_Some {A B : Type} (f : A -> B) (l : list A) :
  for_each (fun x => match x with Some a => Return (f a) | None => Panic end) (map Some l)
  = Return (map f l).
Proof. induction l as [| x l IH]; [reflexivity |]. cbn. rewrite IH. reflexivity. Qed.

Lemma for_each_spec {A B : Type} (f : A -> B) (l : list (option A)) :
  for_each (fun x => match x with Some a => Return (f a) | None => Panic end) l
  = if forallb (fun x => match x with Some _ => true | None => false end) l
    then Return (omap (fun x => f <$> x) l)
    else Panic.
Proof.
  induction l as [| [a |] l IH]; [reflexivity | | reflexivity].
  cbn [for_each and_then forallb andb]. rewrite IH.
  destruct (forallb _ l); reflexivity.
Qed.

Lemma topology_eta (top : types.Topology) :
  {| types.Segments := types.Segments top |} = top.
Proof. destruct top. reflexivity. Qed.

Lemma secret_eta (s : types.VolumeSecret) :
  {| types.Key := types.Key s; types.Secret := types.Secret s |} = s.
Proof. destruct s. reflexivity. Qed.

Lemma topologies_round_trip `{ConvertContext} (tops : slice types.Topology) :
  convert.topologiesFromGRPC (convert.topologiesToGRPC tops) = nil_if_empty tops.
Proof.
  unfold convert.topologiesToGRPC.
  rewrite (foldl_go_append_nil
             (fun top => Some {| swarmapi.Segments := types.Segments top |}) tops).
  destruct tops as [[| t l] |]; try reflexivity.
  cbn [nil_if_empty convert.topologiesFromGRPC]. f_equal.
  rewrite map_map. cbn [convert.topologyFromGRPC swarmapi.Segments].
  rewrite <- (map_id (t :: l)) at 2. apply map_ext. intros top. apply topology_eta.
Qed.

Lemma secrets_round_trip `{ConvertContext} (spec : types.VolumeSpec) :
  convert.volumeSecretsFromGRPC (swarmapi.Secrets (convert.VolumeSpecToGRPC spec))
  = Return (nil_if_empty (types.Secrets spec)).
Proof.
  cbn [convert.VolumeSpecToGRPC swarmapi.Secrets].
  rewrite (foldl_go_append_nil
             (fun secret => Some {| swarmapi.Key := types.Key secret;
                                    swarmapi.Secret := types.Secret secret |})
             (types.Secrets spec)).
  destruct (types.Secrets spec) as [[| s l] |]; try reflexivity.
  cbn [nil_if_empty convert.volumeSecretsFromGRPC].
  rewrite <- (map_map (fun secret => {| swarmapi.Key := types.Key secret;
                                        swarmapi.Secret := types.Secret secret |}) Some).
  rewrite (for_each_Some (fun s0 => {| types.Key := swarmapi.Key s0;
                                       types.Secret := swarmapi.Secret s0 |})).
  cbn [and_then]. do 2 f_equal. rewrite map_map. cbn [swarmapi.Key swarmapi.Secret].
  rewrite <- (map_id (s :: l)) at 2. apply map_ext. intros x. apply secret_eta.
Qed.

(** X20.  For the values the code names, the enumerations survive
    [VolumeSpecToGRPC] followed by the FromGRPC converters: an access mode
    whose scope and sharing mode are named constants comes back as it was
    (an absent one stays absent), and so does a named availability. *)
Theorem X20_named_enumerations_round_trip (C : ConvertContext) (spec : types.VolumeSpec) :
  (forall am, types.AccessMode spec = Some am ->
              named_Scope (types.Scope am) = true /\ named_Sharing (types.Sharing am) = true) ->
  named_Availability (types.Availability spec) = true ->
  convert.accessModeFromGRPC (swarmapi.AccessMode (convert.VolumeSpecToGRPC spec))
  = types.AccessMode spec
  /\ convert.volumeAvailabilityFromGRPC (swarmapi.Availability (convert.VolumeSpecToGRPC spec))
     = types.Availability spec.
Proof.
  intros Ham Hav. cbn [convert.VolumeSpecToGRPC swarmapi.AccessMode swarmapi.Availability].
  split.
  - destruct (types.AccessMode spec) as [[scope sharing] |]; [| reflexivity].
    destruct (Ham _ eq_refl) as [Hscope Hsharing]. cbn in Hscope, Hsharing.
    destruct scope, sharing; try discriminate; reflexivity.
  - destruct (types.Availability spec); try discriminate; reflexivity.
Qed.

(** X20 on the spec of the test, made available as "pause". *)
Lemma X20_enumerations_witness :
  convert.accessModeFromGRPC
    (Some {| swarmapi.Scope := swarmapi.VolumeScopeMultiNode;
             swarmapi.Sharing := swarmapi.VolumeSharingAll |})
  = Some {| types.Scope := types.VolumeScopeMultiNode;
            types.Sharing := types.VolumeSharingAll |}
  /\ convert.volumeAvailabilityFromGRPC swarmapi.VolumeAvailabilityPause
     = types.VolumeAvailabilityPause.
Proof.
  refine (X20_named_enumerations_round_trip sample_context
            {| types.Spec_Annotations := types.Spec_Annotations test_spec;
               types.Group := types.Group test_spec;
               types.Driver := types.Driver test_spec;
               types.AccessMode := types.AccessMode test_spec;
               types.Secrets := types.Secrets test_spec;
               types.AccessibilityRequirements := types.AccessibilityRequirements test_spec;
               types.Spec_CapacityRange := types.Spec_CapacityRange test_spec;
               types.Availability := types.VolumeAvailabilityPause |} _ eq_refl).
  intros am [= <-]. split; reflexivity.
Defined.

(** X21.  Secrets and topology requirements survive [VolumeSpecToGRPC]
    followed by [volumeSecretsFromGRPC] and [topologyRequirementFromGRPC]
    element for element and in order, without a panic, except that an
    empty slice comes back nil: [append] never runs on it. *)
Theorem X21_slices_round_trip_up_to_nil (C : ConvertContext) (spec : types.VolumeSpec) :
  convert.volumeSecretsFromGRPC (swarmapi.Secrets (convert.VolumeSpecToGRPC spec))
  = Return (nil_if_empty (types.Secrets spec))
  /\ convert.topologyRequirementFromGRPC
       (swarmapi.AccessibilityRequirements (convert.VolumeSpecToGRPC spec))
     = match types.AccessibilityRequirements spec with
       | Some ar => Some {| types.Requisite := nil_if_empty (types.Requisite ar);
                            types.Preferred := nil_if_empty (types.Preferred ar) |}
       | None => None
       end.
Proof.
  split; [apply secrets_round_trip |].
  cbn [convert.VolumeSpecToGRPC swarmapi.AccessibilityRequirements].
  destruct (types.AccessibilityRequirements spec) as [ar |]; [| reflexivity].
  cbn [convert.topologyRequirementFromGRPC swarmapi.Requisite swarmapi.Preferred].
  rewrite !topologies_round_trip. reflexivity.
Qed.

(** X22.  [volumeSpecFromGRPC] reads [spec.Driver.Name] without a nil
    check, while [VolumeSpecToGRPC] leaves the driver nil when the engine's
    spec has none: converting a spec to swarmkit's form and back panics
    exactly when the spec has no driver, and otherwise returns a spec with
    that same driver and group. *)
Theorem X22_spec_without_driver_panics_on_the_way_back (C : ConvertContext)
    (spec : types.VolumeSpec) :
  match types.Driver spec with
  | None => convert.volumeSpecFromGRPC (Some (convert.VolumeSpecToGRPC spec)) = Panic
  | Some d =>
      exists back,
        convert.volumeSpecFromGRPC (Some (convert.VolumeSpecToGRPC spec)) = Return (Some back)
        /\ types.Driver back = Some d
        /\ types.Group back = types.Group spec
        /\ types.Secrets back = nil_if_empty (types.Secrets spec)
  end.
Proof.
  unfold convert.volumeSpecFromGRPC.
  rewrite secrets_round_trip.
  cbn [convert.VolumeSpecToGRPC swarmapi.Spec_Driver].
  destruct (types.Driver spec) as [[name opts] |]; [| reflexivity].
  cbn [and_then]. eexists. split; [reflexivity |].
  cbn. repeat split; reflexivity.
Qed.

(** X23.  [volumeSecretsFromGRPC] and [volumePublishStatusFromGRPC] keep a
    nil slice nil, panic exactly when the slice holds a nil pointer, and
    otherwise return a slice of the same length whose elements are the
    conversions of the input's, in order (key and secret, resp. node id and
    publish context, copied). *)
Theorem X23_pointer_slices_convert_elementwise_or_panic (C : ConvertContext)
    (secrets : slice (option swarmapi.VolumeSecret))
    (publishStatus : slice (option swarmapi.VolumePublishStatus)) :
  match secrets with
  | None => convert.volumeSecretsFromGRPC secrets = Return None
  | Some l =>
      if no_nil secrets
      then exists out,
             convert.volumeSecretsFromGRPC secrets = Return (Some out)
             /\ Forall2 (fun s s' => s = Some {| swarmapi.Key := types.Key s';
                                                 swarmapi.Secret := types.Secret s' |}) l out
      else convert.volumeSecretsFromGRPC secrets = Panic
  end
  /\ match publishStatus with
     | None => convert.volumePublishStatusFromGRPC publishStatus = Return None
     | Some l =>
         if no_nil publishStatus
         then exists out,
                convert.volumePublishStatusFromGRPC publishStatus = Return (Some out)
                /\ Forall2 (fun st st' =>
                              exists a b, st = Some a /\ st' = Some b
                                          /\ same_publish_status a b) l out
         else convert.volumePublishStatusFromGRPC publishStatus = Panic
     end.
Proof.
  split.
  - destruct secrets as [l |]; [| reflexivity].
    unfold convert.volumeSecretsFromGRPC, no_nil. cbn [elems].
    rewrite for_each_spec. destruct (forallb _ l) eqn:Hall; [| reflexivity].
    cbn [and_then]. eexists. split; [reflexivity |].
    clear -Hall. induction l as [| [[k s] |] l IH]; [constructor | | discriminate].
    cbn in Hall. cbn. constructor; [reflexivity | apply IH, Hall].
  - destruct publishStatus as [l |]; [| reflexivity].
    unfold convert.volumePublishStatusFromGRPC, no_nil. cbn [elems].
    match goal with
    | |- context [for_each ?g l] =>
        assert (for_each g l
                = if forallb (fun x => match x with Some _ => true | None => false end) l
                  then for_each g l else Panic) as ->
    end.
    { induction l as [| [st |] l IH]; [reflexivity | | reflexivity].
      cbn [forallb andb for_each and_then]. rewrite IH.
      destruct (forallb _ l); reflexivity. }
    destruct (forallb _ l) eqn:Hall; [| reflexivity].
    clear -Hall. induction l as [| [st |] l IH]; [| | discriminate].
    + eexists. split; [reflexivity | constructor].
    + cbn in Hall. destruct (IH Hall) as (out & Hout & Hf).
      cbn [for_each and_then].
      destruct (for_each _ l) as [ys |] eqn:Hys; [| discriminate].
      cbn [and_then] in *. injection Hout as <-.
      eexists. split; [reflexivity |]. constructor; [| exact Hf].
      eexists _, _. repeat split; reflexivity.
Qed.

(** X24.  [VolumeFromGRPC] panics exactly on a nil volume, on a volume
    whose spec has no driver, and on a volume with a nil pointer among its
    secrets or its publish statuses; on every other volume it returns a
    volume with the same ID and version index and with that driver. *)
Theorem X24_VolumeFromGRPC_panics_exactly_on_nil_pointers (C : ConvertContext)
    (v : option swarmapi.Volume) :
  match v with
  | None => convert.VolumeFromGRPC v = Panic
  | Some vol =>
      match swarmapi.Spec_Driver (swarmapi.Spec vol) with
      | None => convert.VolumeFromGRPC v = Panic
      | Some d =>
          if no_nil (swarmapi.Secrets (swarmapi.Spec vol)) && no_nil (swarmapi.PublishStatus vol)
          then exists volume,
                 convert.VolumeFromGRPC v = Return volume
                 /\ types.ID volume = swarmapi.ID vol
                 /\ types.Version_Index volume
                    = swarmapi.Version_Index (swarmapi.Volume_Meta vol)
                 /\ types.Driver (types.Spec volume)
                    = Some {| mount.Name := swarmapi.Driver_Name d;
                              mount.Options := swarmapi.Driver_Options d |}
          else convert.VolumeFromGRPC v = Panic
      end
  end.
Proof.
  destruct v as [vol |]; [| reflexivity].
  unfold convert.VolumeFromGRPC, convert.volumeSpecFromGRPC.
  destruct (swarmapi.Spec_Driver (swarmapi.Spec vol)) as [d |]; [| reflexivity].
  cbn [and_then].
  assert (forall (A B : Type) (f : A -> B) (s : slice (option A)),
            match s with
            | None => Return None
            | Some l =>
                call out <- for_each (fun x => match x with
                                               | Some a => Return (f a)
                                               | None => Panic
                                               end) l in
                Return (Some out)
            end
            = if no_nil s
              then Return (match s with
                           | Some l => Some (omap (fun x => f <$> x) l)
                           | None => None
                           end)
              else Panic) as Hslice.
  { intros A B f [l |]; [| reflexivity]. unfold no_nil. cbn [elems].
    rewrite for_each_spec. destruct (forallb _ l); reflexivity. }
  unfold convert.volumeSecretsFromGRPC. rewrite Hslice.
  destruct (no_nil (swarmapi.Secrets (swarmapi.Spec vol))); [| reflexivity].
  cbn [and_then andb].
  unfold convert.volumePublishStatusFromGRPC.
  rewrite (Hslice _ _
             (fun st => Some {| types.NodeID := swarmapi.NodeID st;
                                types.State := _;
                                types.PublishContext := swarmapi.PublishContext st |})
             (swarmapi.PublishStatus vol)).
  destruct (no_nil (swarmapi.PublishStatus vol)); [| reflexivity].
  cbn [and_then]. eexists. split; [reflexivity |]. repeat split; reflexivity.
Qed.
